(** * AnaliseMercadoDef: the ETL and analytics core of [app.py]

    A shallow embedding of the functions of [src/app.py] that build and
    analyse the consolidated price table:

    - [infer_company_name]   (Entity Resolver)
    - [clean_numeric_column] (Value Normalizer)
    - [load_and_transform]   (Loader/Consolidator and Return Calculator)
    - [compute_summary_stats] (Summary Aggregator)
    - [get_dips_and_momentum] (Event Extractor)

    Modelling choices.

    - Python [float] and the [float64] columns of pandas are IEEE 754
      binary64 numbers: they are Rocq's primitive [float], whose
      operations are those of the machine.  The missing value of a
      [float64] column is [nan].
    - A Python [str] is a [string] whose characters are code points below
      256 (one [ascii] per code point), compared by code point as Python
      compares them.
    - A [datetime64] value is the integer [Z] of its time stamp; [NaT] is
      [None].
    - A [DataFrame] is the list of its column names with the list of its
      rows, in positional order.
    - The calls into pandas and numpy ([to_numeric], [sort_values],
      [groupby], [std], [round]) are modelled after their documented
      behaviour, and each model says so; what [read_csv] makes of the
      bytes of a file is part of the input, and [to_datetime] is a
      parameter of the loader.  The exceptions followed are the one of
      [read_csv], the ones of [pd.to_datetime] and of [.str] on a
      [DataFrame] (a required column that is there twice), and the one
      of unpacking the range of dates; the other calls are taken to
      return. *)

From Stdlib Require Import ZArith List String Ascii Floats Bool Lia.
From Stdlib Require Import Sorting.Sorted Sorting.Permutation.
Import ListNotations.

(** A decimal literal stands for the binary64 number nearest to it, as it
    does in Python. *)
#[local] Set Warnings "-inexact-float".

Local Open Scope string_scope.
Local Open Scope list_scope.

(* ================================================================== *)
(** ** Strings *)

Module Str.

(** [str.lower()] on code points below 256: the ASCII capitals and the
    Latin-1 capitals (all of 192..222 but the multiplication sign 215)
    move up by 32. *)
Definition lower_char (c : ascii) : ascii :=
  let n := nat_of_ascii c in
  if ((65 <=? n) && (n <=? 90))%nat then ascii_of_nat (n + 32)
  else if ((192 <=? n) && (n <=? 222) && negb (n =? 215))%nat
       then ascii_of_nat (n + 32)
  else c.

Fixpoint lower (s : string) : string :=
  match s with
  | EmptyString => EmptyString
  | String c s' => String (lower_char c) (lower s')
  end.

(** [key in s]: [key] occurs in [s] as a contiguous substring. *)
Fixpoint contains (key s : string) : bool :=
  String.prefix key s
  || match s with
     | EmptyString => false
     | String _ s' => contains key s'
     end.

(** [s.replace(c, "")] for a one-character [c]. *)
Fixpoint remove_char (c : ascii) (s : string) : string :=
  match s with
  | EmptyString => EmptyString
  | String d s' =>
      if Ascii.eqb d c then remove_char c s' else String d (remove_char c s')
  end.

(** The part of [s] before its last ["."], when it has one. *)
Fixpoint before_last_dot (s : string) : option string :=
  match s with
  | EmptyString => None
  | String c s' =>
      match before_last_dot s' with
      | Some t => Some (String c t)
      | None => if Ascii.eqb c "."%char then Some EmptyString else None
      end
  end.

(** [s.rsplit(".", 1)[0]]. *)
Definition rsplit_dot_head (s : string) : string :=
  match before_last_dot s with
  | Some t => t
  | None => s
  end.

Fixpoint has_char (c : ascii) (s : string) : bool :=
  match s with
  | EmptyString => false
  | String d s' => Ascii.eqb d c || has_char c s'
  end.

(** The no-break space U+00A0. *)
Definition nbsp : ascii := ascii_of_nat 160.

(** The white space of [str.strip()] among the code points below 256. *)
Definition is_space (c : ascii) : bool :=
  let n := nat_of_ascii c in
  (((9 <=? n) && (n <=? 13)) || ((28 <=? n) && (n <=? 32))
   || (n =? 133) || (n =? 160))%nat.

Fixpoint lstrip (s : string) : string :=
  match s with
  | String c s' => if is_space c then lstrip s' else s
  | EmptyString => s
  end.

Fixpoint rstrip (s : string) : string :=
  match s with
  | EmptyString => EmptyString
  | String c s' =>
      match rstrip s' with
      | EmptyString => if is_space c then EmptyString else String c EmptyString
      | t => String c t
      end
  end.

(** [s.strip()]: white space off both ends. *)
Definition strip (s : string) : string := rstrip (lstrip s).

End Str.

(* ================================================================== *)
(** ** Entity Resolver *)

(** [COMPANY_LABELS]: a [dict] is iterated in insertion order. *)
Definition COMPANY_LABELS : list (string * string) :=
  [ ("general dynamics", "General Dynamics");
    ("lockheed martin", "Lockheed Martin");
    ("northrop grumman", "Northrop Grumman");
    ("rtx corp", "RTX Corp");
    ("boeing", "Boeing") ].

(** The [for key, label in ...items()] loop of [infer_company_name]. *)
Fixpoint first_label (table : list (string * string)) (lower_name : string)
  : option string :=
  match table with
  | [] => None
  | (key, label) :: rest =>
      if Str.contains key lower_name then Some label
      else first_label rest lower_name
  end.

Definition infer_company_name (filename : string) : string :=
  let lower_name := Str.lower filename in
  match first_label COMPANY_LABELS lower_name with
  | Some label => label
  | None => Str.rsplit_dot_head filename
  end.

(* ================================================================== *)
(** ** Value Normalizer *)

Module Num.

Local Open Scope float_scope.

(** A C [int] cast to [double]: the nearest binary64 number. *)
Definition float_of_Z (z : Z) : float :=
  SF2Prim (binary_normalize prec emax z 0%Z false).

(** The table [e[k]] of the powers of ten [1e0 .. 1e308]. *)
Definition pow10 (k : Z) : float := float_of_Z (10 ^ k).

Definition is_space (c : ascii) : bool :=
  let n := nat_of_ascii c in ((n =? 32) || ((9 <=? n) && (n <=? 13)))%nat.

Definition digit_of (c : ascii) : option Z :=
  let n := nat_of_ascii c in
  if ((48 <=? n) && (n <=? 57))%nat then Some (Z.of_nat (n - 48)) else None.

Fixpoint skip_space (s : string) : string :=
  match s with
  | String c s' => if is_space c then skip_space s' else s
  | EmptyString => s
  end.

(** The leading digits of [s] and what follows them. *)
Fixpoint take_digits (s : string) : list Z * string :=
  match s with
  | String c s' =>
      match digit_of c with
      | Some d => let (ds, r) := take_digits s' in (d :: ds, r)
      | None => ([], s)
      end
  | EmptyString => ([], s)
  end.

Definition take_sign (s : string) : bool * string :=
  match s with
  | String "-" s' => (true, s')
  | String "+" s' => (false, s')
  | _ => (false, s)
  end.

Definition max_digits : nat := 17.

(** The reader's accumulator: the number read so far and how many
    digits went into it. *)
Record acc := { number : float; num_digits : nat }.

(** The integer digits: up to [max_digits] of them go into the number,
    each further one adds one to the exponent. *)
Fixpoint read_int (ds : list Z) (a : acc) (exponent : Z) : acc * Z :=
  match ds with
  | [] => (a, exponent)
  | d :: ds' =>
      if (num_digits a <? max_digits)%nat
      then read_int ds'
             {| number := number a * 10 + float_of_Z d;
                num_digits := S (num_digits a) |} exponent
      else read_int ds' a (exponent + 1)%Z
  end.

(** The decimals: up to [max_digits] digits in all go into the number
    and count as decimals, the others are dropped. *)
Fixpoint read_frac (ds : list Z) (a : acc) (num_decimals : Z) : acc * Z :=
  match ds with
  | [] => (a, num_decimals)
  | d :: ds' =>
      if (num_digits a <? max_digits)%nat
      then read_frac ds'
             {| number := number a * 10 + float_of_Z d;
                num_digits := S (num_digits a) |} (num_decimals + 1)%Z
      else (a, num_decimals)
  end.

Fixpoint int_of_digits (ds : list Z) (n : Z) : Z :=
  match ds with
  | [] => n
  | d :: ds' => int_of_digits ds' (n * 10 + d)%Z
  end.

(** The scaling of the number read by the power of ten. *)
Definition scale (x : float) (exponent : Z) : option float :=
  if (308 <? exponent)%Z then None
  else if (0 <? exponent)%Z then Some (x * pow10 exponent)
  else if (exponent <? -308)%Z then
    if (exponent <? -616)%Z then Some 0
    else Some (x / pow10 (-308 - exponent) / pow10 308)
  else Some (x / pow10 (- exponent)).

(** Modelled after pandas' reader of decimal numbers (the one
    [to_numeric] applies to a string): white space, a sign, digits, a
    decimal point and decimals, an exponent, white space; [None] when
    the text is not of that shape or the number overflows. *)
Definition parse_decimal (s : string) : option float :=
  let (negative, s1) := take_sign (skip_space s) in
  let (ids, s2) := take_digits s1 in
  let (a1, e1) := read_int ids {| number := 0; num_digits := 0 |} 0%Z in
  let '(a2, e2, s3) :=
    match s2 with
    | String "." r =>
        let (fds, r') := take_digits r in
        let (a, nd) := read_frac fds a1 0%Z in
        (a, (e1 - nd)%Z, r')
    | _ => (a1, e1, s2)
    end in
  if (num_digits a2 =? 0)%nat then None
  else
    let x := if negative then - number a2 else number a2 in
    let (e3, s4) :=
      match s3 with
      | String c r =>
          if Ascii.eqb c "e" || Ascii.eqb c "E" then
            let (eneg, r1) := take_sign r in
            let (eds, r2) := take_digits r1 in
            match eds with
            | [] => (e2, s3)
            | _ =>
                let n := int_of_digits (firstn max_digits eds) 0%Z in
                ((if eneg then e2 - n else e2 + n)%Z,
                 if (List.length eds <=? max_digits)%nat then r2 else s3)
            end
          else (e2, s3)
      | EmptyString => (e2, s3)
      end in
    match scale x e3 with
    | None => None
    | Some y =>
        if (y =? infinity) || (y =? neg_infinity) then None
        else match skip_space s4 with
             | EmptyString => Some y
             | _ => None
             end
    end.

(** The spellings of infinity that the reader accepts besides. *)
Definition parse_inf (s : string) : option float :=
  let w := Str.lower s in
  if String.eqb w "inf" || String.eqb w "+inf"
     || String.eqb w "infinity" || String.eqb w "+infinity"
  then Some infinity
  else if String.eqb w "-inf" || String.eqb w "-infinity"
  then Some neg_infinity
  else None.

(** [pd.to_numeric(s, errors="coerce")] on one string: what cannot be
    read becomes the missing value. *)
Definition to_numeric (s : string) : float :=
  match parse_decimal s with
  | Some x => x
  | None => match parse_inf s with
            | Some x => x
            | None => nan
            end
  end.

(** The missing value of a [float64] column. *)
Definition isna (x : float) : bool := negb (x =? x).

End Num.

(** [clean_numeric_column] on one cell of the column: the four
    [str.replace] calls in their order, then [to_numeric]. *)
Definition clean_text (s : string) : string :=
  Str.remove_char "$"
    (Str.remove_char ","
       (Str.remove_char " "
          (Str.remove_char Str.nbsp s))).

Definition clean_numeric (s : string) : float :=
  Num.to_numeric (clean_text s).

Definition clean_numeric_column (series : list string) : list float :=
  map clean_numeric series.

(* ================================================================== *)
(** ** Sorting as [sort_values] does *)

Section StableSort.

Context {A : Type}.
Variable le : A -> A -> bool.

(** [x] goes in front of the first element it is not greater than, so
    rows with equal keys keep their order (a stable sort, as
    [sort_values] is on several keys). *)
Fixpoint insert (x : A) (l : list A) : list A :=
  match l with
  | [] => [x]
  | y :: l' => if le x y then x :: l else y :: insert x l'
  end.

Fixpoint sort (l : list A) : list A :=
  match l with
  | [] => []
  | x :: l' => insert x (sort l')
  end.

End StableSort.

(* ================================================================== *)
(** ** The data model *)

(** A row of the consolidated table before the returns are computed:
    the columns [company], [date], [price]. *)
Record Point := mkPoint {
  p_company : string;
  p_date : Z;
  p_price : float
}.

(** A row of the consolidated table: [company], [date], [price],
    [return_pct]; the missing return is [nan]. *)
Record Row := mkRow {
  company : string;
  date : Z;
  price : float;
  return_pct : float
}.

Record DataFrame := mkFrame {
  columns : list string;
  rows : list Row
}.

(** What [read_csv] gives: the header and, under each name, the cells of
    the column as the text read. *)
Definition Csv := list (string * list string).

(** An uploaded file: its name, and what each of the two [read_csv] calls
    of the loader makes of its bytes ([None]: the call raises). *)
Record Upload := mkUpload {
  name : string;
  read_default : option Csv;
  read_latin1 : option Csv
}.

(** A function that returns or raises. *)
Inductive result (A : Type) : Type :=
| Ok (a : A)
| Raised.
Arguments Ok {A} a.
Arguments Raised {A}.

(* ================================================================== *)
(** ** Loader/Consolidator and Return Calculator *)

(** [df[col]]: a Series when one column has that name; when several
    columns have it, a DataFrame of these columns; [KeyError] when none
    has it.  ([read_csv] gives distinct names to the columns, but two
    names that differ only by white space are equal once stripped.) *)
Inductive Selection : Type :=
| KeyError
| Series (cells : list string)
| Columns (cols : list (list string)).

Definition getitem (col : string) (df : Csv) : Selection :=
  match filter (fun cc : string * list string => String.eqb (fst cc) col) df with
  | [] => KeyError
  | [cc] => Series (snd cc)
  | ccs => Columns (map snd ccs)
  end.

Definition required_cols : list string := ["Date"; "Price"].

(** [required_cols.issubset(df.columns)] *)
Definition issubset (cols : list string) (df : Csv) : bool :=
  forallb (fun col => existsb (String.eqb col) (map fst df)) cols.

(** [(company, date) <= (company, date)], the order of
    [sort_values(["company", "date"])]. *)
Definition point_le (a b : Point) : bool :=
  match String.compare (p_company a) (p_company b) with
  | Lt => true
  | Eq => (p_date a <=? p_date b)%Z
  | Gt => false
  end.

(** [groupby("company")["price"].pct_change()]: each row against the row
    before it of the same company, [prev] holding the last price seen of
    each company; the first row of a company has no return. *)
Fixpoint pct_change (prev : string -> option float) (l : list Point)
  : list float :=
  match l with
  | [] => []
  | r :: l' =>
      (match prev (p_company r) with
       | Some p0 => (p_price r / p0 - 1)%float
       | None => nan
       end)
      :: pct_change
           (fun c => if String.eqb c (p_company r) then Some (p_price r)
                     else prev c)
           l'
  end.

(** [data["return_pct"] = data.groupby("company")["price"].pct_change() * 100.0] *)
Definition add_returns (data : list Point) : list Row :=
  map (fun pr : Point * float =>
         let (r, x) := pr in
         mkRow (p_company r) (p_date r) (p_price r) (x * 100)%float)
      (combine data (pct_change (fun _ => None) data)).

Section Loader.

(** [pd.to_datetime(text, errors="coerce")] on one cell: the time
    stamp, or [None] for [NaT]. *)
Variable to_datetime : string -> option Z.

(** The first [read_csv] and, when it raises, the second with
    [encoding="latin-1"], which is not guarded. *)
Definition read_csv (uploaded : Upload) : result Csv :=
  match read_default uploaded with
  | Some df => Ok df
  | None =>
      match read_latin1 uploaded with
      | Some df => Ok df
      | None => Raised
      end
  end.

(** [temp] after [dropna(subset=["date", "price"])]. *)
Fixpoint make_temp (company : string) (dates : list (option Z))
    (prices : list float) : list Point :=
  match dates, prices with
  | d :: dates', x :: prices' =>
      match d with
      | Some t =>
          if Num.isna x then make_temp company dates' prices'
          else mkPoint company t x :: make_temp company dates' prices'
      | None => make_temp company dates' prices'
      end
  | _, _ => []
  end.

(** The body of the [for uploaded in files] loop on one file: it
    raises, or the file is skipped with a warning ([None]), or it gives
    the frame [temp].  Besides the second [read_csv], two calls raise:
    [pd.to_datetime] when [df["Date"]] is a DataFrame (it cannot
    assemble dates from these columns), and [clean_numeric_column] when
    [df["Price"]] is a DataFrame (which has no [.str]). *)
Definition file_frame (uploaded : Upload) : result (option (list Point)) :=
  match read_csv uploaded with
  | Raised => Raised
  | Ok df0 =>
      let df := map (fun cc : string * list string =>
                       (Str.strip (fst cc), snd cc)) df0 in
      if negb (issubset required_cols df) then Ok None
      else
        let company := infer_company_name (name uploaded) in
        match getitem "Date" df with
        | Series dates =>
            let date := map to_datetime dates in
            match getitem "Price" df with
            | Series prices =>
                let price := clean_numeric_column prices in
                Ok (Some (make_temp company date price))
            | _ => Raised
            end
        | _ => Raised
        end
  end.

(** The [for uploaded in files] loop: the frames collected and the
    names of the files warned about. *)
Fixpoint load_frames (files : list Upload) (frames : list (list Point))
    (warnings : list string) : result (list (list Point) * list string) :=
  match files with
  | [] => Ok (frames, warnings)
  | uploaded :: rest =>
      match file_frame uploaded with
      | Raised => Raised
      | Ok (Some temp) => load_frames rest (frames ++ [temp]) warnings
      | Ok None => load_frames rest frames (warnings ++ [name uploaded])
      end
  end.

Definition load_and_transform (files : list Upload)
  : result (DataFrame * list string) :=
  match load_frames files [] [] with
  | Raised => Raised
  | Ok (frames, warnings) =>
      match frames with
      | [] => Ok (mkFrame ["company"; "date"; "price"; "return_pct"] [],
                  warnings)
      | _ =>
          let data := List.concat frames in
          let data := sort point_le data in
          Ok (mkFrame (["company"; "date"; "price"] ++ ["return_pct"])
                      (add_returns data),
              warnings)
      end
  end.

End Loader.

(** A reader of ISO dates ["YYYY-MM-DD"], as the number of days since
    1970-01-01: one [to_datetime] among those the loader may be run
    with. *)
Definition days_from_civil (y m d : Z) : Z :=
  let y' := (if m <=? 2 then y - 1 else y)%Z in
  let era := (y' / 400)%Z in
  let yoe := (y' - era * 400)%Z in
  let doy := ((153 * (if m >? 2 then m - 3 else m + 9) + 2) / 5 + d - 1)%Z in
  let doe := (yoe * 365 + yoe / 4 - yoe / 100 + doy)%Z in
  (era * 146097 + doe - 719468)%Z.

Definition iso_date (s : string) : option Z :=
  let (ys, r1) := Num.take_digits s in
  match r1 with
  | String "-" r2 =>
      let (ms, r3) := Num.take_digits r2 in
      match r3 with
      | String "-" r4 =>
          let (ds, r5) := Num.take_digits r4 in
          let y := Num.int_of_digits ys 0%Z in
          let m := Num.int_of_digits ms 0%Z in
          let d := Num.int_of_digits ds 0%Z in
          match r5 with
          | EmptyString =>
              if ((List.length ys =? 4)%nat && (1 <=? m)%Z && (m <=? 12)%Z
                  && (1 <=? d)%Z && (d <=? 31)%Z)
              then Some (days_from_civil y m d) else None
          | _ => None
          end
      | _ => None
      end
  | _ => None
  end.

(* ================================================================== *)
(** ** The numpy and pandas reductions *)

Module Np.

Local Open Scope float_scope.

Definition geb (x y : float) : bool := y <=? x.

Definition two52 : float := 4503599627370496.

(** [rint]: the nearest integer, ties to even, with the sign of [x]. *)
Definition rint (x : float) : float :=
  if abs x <? two52 then
    let y := (abs x + two52) - two52 in
    if x <? 0 then - y else if x =? 0 then x else y
  else x.

(** [round(x, 2)] of a [float64]: numpy scales by [10 ** 2], rounds to
    the nearest integer and scales back. *)
Definition round2 (x : float) : float := rint (x * 100) / 100.

(** The values of a column that are not missing ([skipna]). *)
Definition dropna (l : list float) : list float :=
  filter (fun x => negb (Num.isna x)) l.

Definition sum (l : list float) : float := fold_left add l 0.

(** [Series.std()]: the sample standard deviation ([ddof=1]) of the
    values that are not missing, and missing when there are fewer than
    two of them.  The sums run from left to right. *)
Definition std (l : list float) : float :=
  let values := dropna l in
  let count := List.length values in
  if (count <=? 1)%nat then nan
  else
    let n := Num.float_of_Z (Z.of_nat count) in
    let d := Num.float_of_Z (Z.of_nat count - 1) in
    let avg := sum values / n in
    let sqr := map (fun v => (avg - v) * (avg - v)) values in
    sqrt (sum sqr / d).

Definition fmax (a b : float) : float := if a <? b then b else a.
Definition fmin (a b : float) : float := if b <? a then b else a.

(** [Series.max()] and [Series.min()]: over the values that are not
    missing, and missing when there is none. *)
Definition max (l : list float) : float :=
  match dropna l with
  | [] => nan
  | x :: xs => fold_left fmax xs x
  end.

Definition min (l : list float) : float :=
  match dropna l with
  | [] => nan
  | x :: xs => fold_left fmin xs x
  end.

End Np.

(* ================================================================== *)
(** ** Summary Aggregator *)

(** One row of the table of [compute_summary_stats]; the fields are the
    columns "Empresa", "Preço inicial", "Preço final", "Retorno total (%)",
    "Volatilidade média (%)", "Maior alta semanal (%)" and "Maior queda
    semanal (%)". *)
Record Summary := mkSummary {
  Empresa : string;
  Preco_inicial : float;
  Preco_final : float;
  Retorno_total : float;
  Volatilidade_media : float;
  Maior_alta_semanal : float;
  Maior_queda_semanal : float
}.

(** The rows of one group of [data.groupby("company")], in the order of
    [data]. *)
Definition group (c : string) (data : list Row) : list Row :=
  filter (fun r => String.eqb (company r) c) data.

Fixpoint dedup (l : list string) : list string :=
  match l with
  | [] => []
  | x :: l' =>
      match l' with
      | [] => [x]
      | y :: _ => if String.eqb x y then dedup l' else x :: dedup l'
      end
  end.

(** The keys of [data.groupby("company")]: each company once, in
    increasing order. *)
Definition group_keys (data : list Row) : list string :=
  dedup (sort String.leb (map company data)).

(** The order of [df_c.sort_values("date")].  (Rows of equal date keep
    their order in the model; which of them comes first is not fixed by
    the sort on one key, and no statement below depends on it.) *)
Definition date_le (a b : Row) : bool := (date a <=? date b)%Z.

(** [.iloc[0]] and [.iloc[-1]] of the price column (of a group, which
    has a row). *)
Definition iloc_first (l : list Row) : float :=
  match l with
  | [] => nan
  | r :: _ => price r
  end.

Definition iloc_last (l : list Row) : float :=
  match rev l with
  | [] => nan
  | r :: _ => price r
  end.

(** The body of the [for company, df_c in data.groupby("company")]
    loop. *)
Definition summarize (company : string) (df_c0 : list Row) : Summary :=
  let df_c := sort date_le df_c0 in
  let first_price := iloc_first df_c in
  let last_price := iloc_last df_c in
  let total_return :=
    (if 0 <? first_price then (last_price / first_price - 1) * 100
     else nan)%float in
  let vol := Np.std (map return_pct df_c) in
  let max_up := Np.max (map return_pct df_c) in
  let max_down := Np.min (map return_pct df_c) in
  mkSummary company
            (Np.round2 first_price)
            (Np.round2 last_price)
            (Np.round2 total_return)
            (Np.round2 vol)
            (Np.round2 max_up)
            (Np.round2 max_down).

Definition compute_summary_stats (data : list Row) : list Summary :=
  match data with
  | [] => []
  | _ => map (fun c => summarize c (group c data)) (group_keys data)
  end.

(* ================================================================== *)
(** ** Event Extractor *)

(** The order of [sort_values(["date", "company"], ascending=[False, True])]. *)
Definition event_le (a b : Row) : bool :=
  (date b <? date a)%Z
  || ((date a =? date b)%Z && String.leb (company a) (company b)).

(** The two tables of [get_dips_and_momentum], as their rows. *)
Definition get_dips_and_momentum (data : list Row) (threshold : float)
  : list Row * list Row :=
  match data with
  | [] => ([], [])
  | _ =>
      let dips :=
        filter (fun r => (return_pct r <=? - abs threshold)%float) data in
      let momentum :=
        filter (fun r => Np.geb (return_pct r) (abs threshold)) data in
      (sort event_le dips, sort event_le momentum)
  end.

(* ================================================================== *)
(** ** The script: from the uploads to the tables shown *)

(** [Series.unique()]: each value once, in the order of the first
    occurrences; [seen] holds the values met so far. *)
Fixpoint unique_from (seen : list string) (l : list string) : list string :=
  match l with
  | [] => []
  | x :: l' =>
      if existsb (String.eqb x) seen then unique_from seen l'
      else x :: unique_from (x :: seen) l'
  end.

(** [sorted(data["company"].unique().tolist())] *)
Definition companies (data : list Row) : list string :=
  sort String.leb (unique_from [] (map company data)).

(** [data[data["company"].isin(selected_companies)]] *)
Definition select_companies (selected : list string) (data : list Row)
  : list Row :=
  filter (fun r => existsb (String.eqb (company r)) selected) data.

(** [data.dropna(subset=["return_pct"])], the table of the chart of the
    returns. *)
Definition return_chart_rows (data : list Row) : list Row :=
  filter (fun r => negb (Num.isna (return_pct r))) data.

(** What [st.sidebar.date_input] returns: one date, or a tuple of dates
    (a date is a number of days). *)
Inductive DateInput : Type :=
| OneDate (d : Z)
| DateTuple (ds : list Z).

(** The reasons of [st.stop()]: no file uploaded, no valid data loaded,
    no company selected, no row in the range of dates. *)
Inductive Halt : Type :=
| NoFiles
| NoValidData
| NoCompany
| EmptyRange.

(** A run of the script shows its tables, or stops with a message, or
    ends on an exception. *)
Inductive Run (A : Type) : Type :=
| Shown (a : A)
| Halted (h : Halt)
| Crashed.
Arguments Shown {A} a.
Arguments Halted {A} h.
Arguments Crashed {A}.

(** The tables of a run: the filtered data, the two tables of events and
    the summary. *)
Record View := mkView {
  v_data : list Row;
  v_dips : list Row;
  v_momentum : list Row;
  v_stats : list Summary
}.

(** [Series.min()] and [Series.max()] of the dates (of a table that has
    a row). *)
Definition min_of (l : list Z) : Z :=
  match l with
  | [] => 0%Z
  | x :: l' => fold_left Z.min l' x
  end.

Definition max_of (l : list Z) : Z :=
  match l with
  | [] => 0%Z
  | x :: l' => fold_left Z.max l' x
  end.

Section Script.

(** The date reader of the loader, and the number of units of its time
    stamps in one day. *)
Variable to_datetime : string -> option Z.
Variable ticks_per_day : Z.

(** The user: the companies picked in the multiselect (among its
    options), the answer of the date input to its default range, the
    threshold of the slider. *)
Variable pick : string -> bool.
Variable date_input : Z -> Z -> DateInput.
Variable threshold : Z.

(** [.dt.date] and [.date()]: the day of a time stamp. *)
Definition dt_date (t : Z) : Z := (t / ticks_per_day)%Z.

(** [mask = (data["date"].dt.date >= start_date)
           & (data["date"].dt.date <= end_date)], and [data[mask]]. *)
Definition date_mask (start_date end_date : Z) (data : list Row) : list Row :=
  filter (fun r => (start_date <=? dt_date (date r))%Z
                   && (dt_date (date r) <=? end_date)%Z) data.

(** [start_date, end_date = date_range] for a tuple, which raises unless
    the tuple has two dates; the whole range otherwise. *)
Definition unpack_range (min_date max_date : Z) (date_range : DateInput)
  : result (Z * Z) :=
  match date_range with
  | DateTuple [start_date; end_date] => Ok (start_date, end_date)
  | DateTuple _ => Raised
  | OneDate _ => Ok (min_date, max_date)
  end.

(** The script below its function definitions, one run. *)
Definition run_app (uploaded_files : list Upload) : Run View :=
  match uploaded_files with
  | [] => Halted NoFiles
  | _ =>
      match load_and_transform to_datetime uploaded_files with
      | Raised => Crashed
      | Ok (df, _) =>
          match rows df with
          | [] => Halted NoValidData
          | _ =>
              let selected_companies := filter pick (companies (rows df)) in
              match selected_companies with
              | [] => Halted NoCompany
              | _ =>
                  let data := select_companies selected_companies (rows df) in
                  let min_date := dt_date (min_of (map date data)) in
                  let max_date := dt_date (max_of (map date data)) in
                  match unpack_range min_date max_date
                          (date_input min_date max_date) with
                  | Raised => Crashed
                  | Ok (start_date, end_date) =>
                      let data := date_mask start_date end_date data in
                      match data with
                      | [] => Halted EmptyRange
                      | _ =>
                          let (dips, momentum) :=
                            get_dips_and_momentum data
                              (Num.float_of_Z threshold) in
                          Shown (mkView data dips momentum
                                        (compute_summary_stats data))
                      end
                  end
              end
          end
      end
  end.

End Script.

(* ================================================================== *)
(** ** The vocabulary of the statements *)

(** A row comes before another in a table of events: later time stamp
    first, and on the same time stamp the company names in increasing
    order. *)
Definition date_desc_company_asc (a b : Row) : Prop :=
  (date b < date a)%Z
  \/ (date a = date b /\ String.leb (company a) (company b) = true).

(** The same order on the days of the time stamps: later day first, and
    on the same day the company names in increasing order. *)
Definition day_desc_company_asc (ticks_per_day : Z) (a b : Row) : Prop :=
  (dt_date ticks_per_day (date b) < dt_date ticks_per_day (date a))%Z
  \/ (dt_date ticks_per_day (date a) = dt_date ticks_per_day (date b)
      /\ String.leb (company a) (company b) = true).

(** A row is a sharp decline, or a sharp rise, for the threshold [t]: it
    has a return, and the return is at most [- t], or at least [t]. *)
Definition is_decline (t : float) (r : Row) : bool :=
  negb (Num.isna (return_pct r)) && (return_pct r <=? - t)%float.

Definition is_rise (t : float) (r : Row) : bool :=
  negb (Num.isna (return_pct r)) && (t <=? return_pct r)%float.

(** The columns [company], [date], [price] of a row. *)
Definition point_of (r : Row) : Point :=
  mkPoint (company r) (date r) (price r).

(** A table is sorted by company, and the rows of a company by date. *)
Definition sorted_by_company_date (data : list Point) : Prop :=
  StronglySorted (fun a b => point_le a b = true) data.

(** The rows of a table are in chronological order. *)
Definition chronological (l : list Row) : Prop :=
  StronglySorted (fun a b => (date a <= date b)%Z) l.

(** One of the two [read_csv] calls succeeds on the file. *)
Definition readable (u : Upload) : bool :=
  match read_default u, read_latin1 u with
  | None, None => false
  | _, _ => true
  end.

(** The names of the columns of the file, stripped, when it is read. *)
Definition header (u : Upload) : list string :=
  match read_csv u with
  | Ok df => map (fun cc : string * list string => Str.strip (fst cc)) df
  | Raised => []
  end.

(** The number of columns of that name. *)
Definition occurrences (col : string) (names : list string) : nat :=
  List.length (filter (fun n => String.eqb n col) names).

(** The file has the columns "Date" and "Price", and two columns or more
    have one of these names. *)
Definition duplicated_required (u : Upload) : bool :=
  ((1 <=? occurrences "Date" (header u))%nat
   && (1 <=? occurrences "Price" (header u))%nat)
  && ((2 <=? occurrences "Date" (header u))%nat
      || (2 <=? occurrences "Price" (header u))%nat).


(** The loop of the Loader goes through the file without raising: it is
    read, and no required column is there twice. *)
Definition processable (u : Upload) : bool :=
  readable u && negb (duplicated_required u).

(** The lines of a file that has one column "Date" and one column
    "Price": the text of the date and the text of the price of each
    line, in the order of the file. *)
Definition cell_lines (u : Upload) : list (string * string) :=
  match read_csv u with
  | Ok df0 =>
      let df := map (fun cc : string * list string =>
                       (Str.strip (fst cc), snd cc)) df0 in
      match getitem "Date" df, getitem "Price" df with
      | Series dates, Series prices => combine dates prices
      | _, _ => []
      end
  | Raised => []
  end.

Section LoaderVocabulary.

Variable to_datetime : string -> option Z.

(** The file is read but lacks the column "Date" or the column
    "Price". *)
Definition lacks_columns (u : Upload) : bool :=
  match file_frame to_datetime u with
  | Ok None => true
  | _ => false
  end.

(** The rows that the file gives to the consolidated table: those with
    a date and a price, when the file is read and has the two
    columns. *)
Definition valid_rows (u : Upload) : list Point :=
  match file_frame to_datetime u with
  | Ok (Some temp) => temp
  | _ => []
  end.

(** The frames of the files that are read and have the two columns. *)
Definition frames_of (files : list Upload) : list (list Point) :=
  flat_map (fun u => match file_frame to_datetime u with
                     | Ok (Some temp) => [temp]
                     | _ => []
                     end) files.

(** A line is valid: its date is read and its price is a number. *)
Definition valid_line (l : string * string) : bool :=
  match to_datetime (fst l) with
  | Some _ => negb (Num.isna (clean_numeric (snd l)))
  | None => false
  end.

(** The row that a line gives to the table of the company [c], if it is
    valid. *)
Definition line_row (c : string) (l : string * string) : list Point :=
  match to_datetime (fst l) with
  | Some t =>
      if Num.isna (clean_numeric (snd l)) then []
      else [mkPoint c t (clean_numeric (snd l))]
  | None => []
  end.

End LoaderVocabulary.














(** [add_returns] when the loop has already seen some rows. *)
Definition add_returns_from (prev : string -> option float)
    (data : list Point) : list Row :=
  map (fun pr : Point * float =>
         let (r, x) := pr in
         mkRow (p_company r) (p_date r) (p_price r) (x * 100)%float)
      (combine data (pct_change prev data)).

(** A key that orders the numbers other than [nan] as the comparisons
    do: the class, then the exponent, then the mantissa. *)
Definition key (x : spec_float) : Z * Z * Z :=
  match x with
  | S754_infinity true => (-2, 0, 0)%Z
  | S754_finite true m e => (-1, - e, - Zpos m)%Z
  | S754_zero _ => (0, 0, 0)%Z
  | S754_nan => (0, 0, 0)%Z
  | S754_finite false m e => (1, e, Zpos m)%Z
  | S754_infinity false => (2, 0, 0)%Z
  end.

Definition key_lt (a b : Z * Z * Z) : Prop :=
  let '(a1, a2, a3) := a in
  let '(b1, b2, b3) := b in
  (a1 < b1 \/ (a1 = b1 /\ (a2 < b2 \/ (a2 = b2 /\ a3 < b3))))%Z.

Definition key_le (a b : Z * Z * Z) : Prop :=
  let '(a1, a2, a3) := a in
  let '(b1, b2, b3) := b in
  (a1 < b1 \/ (a1 = b1 /\ (a2 < b2 \/ (a2 = b2 /\ a3 <= b3))))%Z.

(** [r] is a row of the company [c] with the earliest, or the latest,
    date among the rows of [c]. *)
Definition earliest_row (c : string) (data : list Row) (r : Row) : Prop :=
  In r data /\ company r = c
  /\ forall r', In r' data -> company r' = c -> (date r <= date r')%Z.

Definition latest_row (c : string) (data : list Row) (r : Row) : Prop :=
  In r data /\ company r = c
  /\ forall r', In r' data -> company r' = c -> (date r' <= date r)%Z.

(** The column [return_pct] of the rows of [c], in the order of their
    dates. *)
Definition returns_of (c : string) (data : list Row) : list float :=
  map return_pct (sort date_le (group c data)).

(** [m] is the greatest, or the least, of the values of [l] that are not
    missing, and is missing when there is none. *)
Definition greatest_of (l : list float) (m : float) : Prop :=
  match Np.dropna l with
  | [] => m = nan
  | _ => In m (Np.dropna l)
         /\ forall x, In x (Np.dropna l) -> (x <=? m)%float = true
  end.

Definition least_of (l : list float) (m : float) : Prop :=
  match Np.dropna l with
  | [] => m = nan
  | _ => In m (Np.dropna l)
         /\ forall x, In x (Np.dropna l) -> (m <=? x)%float = true
  end.

(* ================================================================== *)
(** * Properties *)

(** ** Facts on binary64 numbers *)

Module FloatFacts.

Local Open Scope float_scope.

Lemma Prim2SF_nan : Prim2SF nan = S754_nan.
Proof. reflexivity. Qed.

Lemma Prim2SF_zero : Prim2SF 0 = S754_zero false.
Proof. reflexivity. Qed.

Lemma abs_opp (t : float) : abs (- t) = abs t.
Proof.
  apply Prim2SF_inj.
  rewrite !abs_spec, opp_spec.
  destruct (Prim2SF t); reflexivity.
Qed.

Lemma abs_abs (t : float) : abs (abs t) = abs t.
Proof.
  apply Prim2SF_inj.
  rewrite !abs_spec.
  destruct (Prim2SF t); reflexivity.
Qed.

Lemma abs_pos (t : float) : (0 <? t) = true -> abs t = t.
Proof.
  rewrite ltb_spec, Prim2SF_zero. intros H.
  apply Prim2SF_inj. rewrite abs_spec.
  destruct (Prim2SF t) as [s | s | | s m e]; cbn in H |- *;
    try discriminate; destruct s; try discriminate; reflexivity.
Qed.

Lemma mul_comm (x y : float) : x * y = y * x.
Proof.
  apply Prim2SF_inj. rewrite !mul_spec. unfold SF64mul.
  destruct (Prim2SF x) as [sx | sx | | sx mx ex],
           (Prim2SF y) as [sy | sy | | sy my ey];
    cbn; rewrite ?(xorb_comm sx sy); try reflexivity.
  now rewrite (Pos.mul_comm mx my), (Z.add_comm ex ey).
Qed.

Lemma leb_nan_l (x : float) : (nan <=? x) = false.
Proof. now rewrite leb_spec, Prim2SF_nan. Qed.

Lemma leb_nan_r (x : float) : (x <=? nan) = false.
Proof.
  rewrite leb_spec, Prim2SF_nan. unfold SFleb.
  destruct (Prim2SF x); reflexivity.
Qed.

Lemma SFcompare_refl (x : spec_float) :
  x <> S754_nan -> SFcompare x x = Some Eq.
Proof.
  destruct x as [s | s | | s m e]; intros H; cbn;
    try congruence; try (destruct s; reflexivity).
  destruct s; rewrite Z.compare_refl;
    fold (Pos.compare m m); now rewrite Pos.compare_refl.
Qed.

(** The only number that differs from itself is the missing value. *)
Lemma isna_spec (x : float) : Num.isna x = true <-> x = nan.
Proof.
  unfold Num.isna. rewrite FloatAxioms.eqb_spec. unfold SFeqb. split.
  - intros H. apply Prim2SF_inj. rewrite Prim2SF_nan.
    destruct (Prim2SF x) as [s | s | | s m e] eqn:E; try reflexivity;
      rewrite SFcompare_refl in H by discriminate; discriminate.
  - intros ->. reflexivity.
Qed.

Lemma isna_false (x : float) : Num.isna x = false <-> x <> nan.
Proof.
  rewrite <- isna_spec. destruct (Num.isna x); split; congruence.
Qed.

End FloatFacts.

(** ** Facts on the stable sort *)

Section SortFacts.

Context {A : Type}.
Variable le : A -> A -> bool.

Lemma insert_perm (x : A) (l : list A) : Permutation (insert le x l) (x :: l).
Proof.
  induction l as [| y l IH]; simpl; [reflexivity |].
  destruct (le x y); [reflexivity |].
  rewrite IH. apply perm_swap.
Qed.

Lemma sort_perm (l : list A) : Permutation (sort le l) l.
Proof.
  induction l as [| x l IH]; simpl; [constructor |].
  rewrite insert_perm. now constructor.
Qed.

Lemma sort_In (l : list A) (x : A) : In x (sort le l) <-> In x l.
Proof.
  split; apply Permutation_in;
    [apply sort_perm | apply Permutation_sym, sort_perm].
Qed.

Lemma sort_nil_inv (l : list A) : sort le l = [] -> l = [].
Proof.
  intros H. apply Permutation_nil.
  rewrite <- H. apply sort_perm.
Qed.

Hypothesis le_total : forall a b, le a b = false -> le b a = true.
Hypothesis le_trans :
  forall a b c, le a b = true -> le b c = true -> le a c = true.

Lemma insert_sorted (x : A) (l : list A) :
  StronglySorted (fun a b => le a b = true) l ->
  StronglySorted (fun a b => le a b = true) (insert le x l).
Proof.
  induction 1 as [| y l Hl IH Hy]; simpl.
  - repeat constructor.
  - destruct (le x y) eqn:E.
    + constructor; [now constructor |].
      constructor; [exact E |].
      eapply Forall_impl; [| exact Hy]. intros z Hz. now apply (le_trans x y z).
    + constructor; [exact IH |].
      apply (Permutation_Forall (Permutation_sym (insert_perm x l))).
      constructor; [now apply le_total | exact Hy].
Qed.

Lemma sort_sorted (l : list A) :
  StronglySorted (fun a b => le a b = true) (sort le l).
Proof.
  induction l as [| x l IH]; simpl; [constructor | now apply insert_sorted].
Qed.

End SortFacts.

(** What a sorted list says of its first and of its last row. *)
Lemma sorted_head_least {A : Type} (R : A -> A -> Prop) (x : A) (l : list A) :
  (forall a, R a a) -> StronglySorted R (x :: l) ->
  forall y, In y (x :: l) -> R x y.
Proof.
  intros Hrefl Hs y [<- | Hy]; [apply Hrefl |].
  apply StronglySorted_inv in Hs. destruct Hs as [_ Hall].
  rewrite Forall_forall in Hall. now apply Hall.
Qed.

Lemma sorted_last_greatest {A : Type} (R : A -> A -> Prop) (l : list A) (z : A) :
  (forall a, R a a) -> StronglySorted R (l ++ [z]) ->
  forall y, In y (l ++ [z]) -> R y z.
Proof.
  intros Hrefl. induction l as [| x l IH]; simpl; intros Hs y Hy.
  - destruct Hy as [<- | []]. apply Hrefl.
  - apply StronglySorted_inv in Hs. destruct Hs as [Hs Hall].
    destruct Hy as [<- | Hy]; [| now apply IH].
    rewrite Forall_forall in Hall. apply Hall.
    apply in_or_app. right. now left.
Qed.

Lemma sorted_filter {A : Type} (R : A -> A -> Prop) (f : A -> bool) (l : list A) :
  StronglySorted R l -> StronglySorted R (filter f l).
Proof.
  induction 1 as [| x l Hl IH Hx]; simpl; [constructor |].
  destruct (f x); [| exact IH].
  constructor; [exact IH |].
  rewrite Forall_forall in *. intros y Hy.
  apply filter_In in Hy. now apply Hx.
Qed.

(** ** Facts on the order of strings *)

Module StrFacts.

Lemma ascii_compare_refl (c : ascii) : Ascii.compare c c = Eq.
Proof. unfold Ascii.compare. apply N.compare_refl. Qed.

Lemma compare_refl (s : string) : String.compare s s = Eq.
Proof.
  induction s as [| c s IH]; simpl; [reflexivity |].
  now rewrite ascii_compare_refl.
Qed.

Lemma leb_refl (s : string) : String.leb s s = true.
Proof. unfold String.leb. now rewrite compare_refl. Qed.

Lemma compare_not_gt_trans (a b c : string) :
  String.compare a b <> Gt -> String.compare b c <> Gt ->
  String.compare a c <> Gt.
Proof.
  revert b c. induction a as [| x a IH]; intros [| y b] [| z c]; simpl;
    try congruence.
  unfold Ascii.compare.
  destruct (N.compare_spec (N_of_ascii x) (N_of_ascii y)) as [Exy | Lxy | Gxy];
    destruct (N.compare_spec (N_of_ascii y) (N_of_ascii z)) as [Eyz | Lyz | Gyz];
    destruct (N.compare_spec (N_of_ascii x) (N_of_ascii z)) as [Exz | Lxz | Gxz];
    try congruence; try lia.
  apply IH.
Qed.

Lemma leb_trans (a b c : string) :
  String.leb a b = true -> String.leb b c = true -> String.leb a c = true.
Proof.
  unfold String.leb. intros H1 H2.
  assert (H : String.compare a c <> Gt).
  { apply (compare_not_gt_trans a b c).
    - destruct (String.compare a b); congruence.
    - destruct (String.compare b c); congruence. }
  destruct (String.compare a c); congruence.
Qed.

Lemma leb_total (a b : string) : String.leb a b = false -> String.leb b a = true.
Proof.
  intros H. destruct (String.leb_total a b); congruence.
Qed.

Lemma compare_eq (a b : string) : String.compare a b = Eq <-> a = b.
Proof.
  split; [apply String.compare_eq_iff | intros ->; apply compare_refl].
Qed.

End StrFacts.

(* ================================================================== *)
(** ** Event Extractor *)

Module EventFacts.

Lemma event_le_total (a b : Row) : event_le a b = false -> event_le b a = true.
Proof.
  unfold event_le. intros H.
  apply orb_false_iff in H. destruct H as [H1 H2].
  apply Z.ltb_ge in H1.
  destruct (Z.eq_dec (date a) (date b)) as [E | N].
  - rewrite E in *. rewrite Z.eqb_refl in *. simpl in H2.
    apply StrFacts.leb_total in H2. rewrite H2. apply orb_true_r.
  - assert (Hlt : (date a <? date b)%Z = true) by (apply Z.ltb_lt; lia).
    now rewrite Hlt.
Qed.

Lemma event_le_spec (a b : Row) :
  event_le a b = true <-> date_desc_company_asc a b.
Proof.
  unfold event_le, date_desc_company_asc.
  rewrite orb_true_iff, andb_true_iff, Z.ltb_lt, Z.eqb_eq. reflexivity.
Qed.

Lemma event_le_trans (a b c : Row) :
  event_le a b = true -> event_le b c = true -> event_le a c = true.
Proof.
  rewrite !event_le_spec. unfold date_desc_company_asc.
  intros [H1 | [H1 L1]] [H2 | [H2 L2]]; try (left; lia).
  right. split; [congruence | now apply (StrFacts.leb_trans _ (company b))].
Qed.

Lemma sort_event_sorted (l : list Row) :
  StronglySorted date_desc_company_asc (sort event_le l).
Proof.
  assert (H := sort_sorted event_le event_le_total event_le_trans l).
  induction H as [| x l' Hl IH Hx]; constructor; [exact IH |].
  eapply Forall_impl; [| exact Hx]. intros y. apply event_le_spec.
Qed.

Lemma leb_not_na_l (x y : float) : (x <=? y)%float = true -> Num.isna x = false.
Proof.
  intros H. apply FloatFacts.isna_false. intros ->.
  now rewrite FloatFacts.leb_nan_l in H.
Qed.

Lemma leb_not_na_r (x y : float) : (x <=? y)%float = true -> Num.isna y = false.
Proof.
  intros H. apply FloatFacts.isna_false. intros ->.
  now rewrite FloatFacts.leb_nan_r in H.
Qed.

Lemma is_decline_leb (t : float) (r : Row) :
  is_decline t r = (return_pct r <=? - t)%float.
Proof.
  unfold is_decline.
  destruct (return_pct r <=? - t)%float eqn:E; [| apply andb_false_r].
  now rewrite (leb_not_na_l _ _ E).
Qed.

Lemma is_rise_geb (t : float) (r : Row) :
  is_rise t r = Np.geb (return_pct r) t.
Proof.
  unfold is_rise, Np.geb.
  destruct (t <=? return_pct r)%float eqn:E; [| apply andb_false_r].
  now rewrite (leb_not_na_r _ _ E).
Qed.

(** The two tables as the sorted selections of the two kinds of rows. *)
Lemma get_dips_and_momentum_eq (data : list Row) (t : float) :
  get_dips_and_momentum data t
  = (sort event_le (filter (is_decline (abs t)) data),
     sort event_le (filter (is_rise (abs t)) data)).
Proof.
  unfold get_dips_and_momentum.
  destruct data as [| r data]; [reflexivity |].
  f_equal; f_equal; apply filter_ext; intros x;
    [now rewrite is_decline_leb | now rewrite is_rise_geb].
Qed.

Lemma days_of_stamps (ticks : Z) (a b : Row) :
  (0 < ticks)%Z ->
  (date a mod ticks = 0)%Z -> (date b mod ticks = 0)%Z ->
  date_desc_company_asc a b -> day_desc_company_asc ticks a b.
Proof.
  intros Ht Ha Hb. unfold date_desc_company_asc, day_desc_company_asc, dt_date.
  apply Z.div_exact in Ha; [| lia]. apply Z.div_exact in Hb; [| lia].
  intros [H | [H1 H2]]; [left; nia | right].
  split; [now rewrite H1 | exact H2].
Qed.

Lemma sort_event_sorted_days (ticks : Z) (p : Row -> bool) (data : list Row) :
  (0 < ticks)%Z ->
  (forall r, In r data -> (date r mod ticks = 0)%Z) ->
  StronglySorted (day_desc_company_asc ticks) (sort event_le (filter p data)).
Proof.
  intros Ht Hm.
  assert (F : Forall (fun r => (date r mod ticks = 0)%Z)
                     (sort event_le (filter p data))).
  { apply Forall_forall. intros r Hr. apply sort_In, filter_In in Hr.
    now apply Hm. }
  assert (H := sort_event_sorted (filter p data)).
  induction H as [| x l Hl IH Hx]; [constructor |].
  apply Forall_cons_iff in F. destruct F as [Fx Fl].
  constructor; [now apply IH |].
  rewrite Forall_forall in *. intros y Hy.
  apply days_of_stamps; auto.
Qed.

End EventFacts.

(** C2.  For a threshold [t > 0] the declines are exactly the rows of
    the data that have a return at most [- t] and the rises exactly those
    that have a return at least [t] (as many times as the data has them);
    a row without a return is in neither table; the bound is inclusive:
    with [t = 10] a return of [-10.0] is a decline and one of [-9.99] is
    not. *)
Theorem events_exactly_beyond_threshold :
  forall (data : list Row) (t : float),
    (0 <? t)%float = true ->
    let (declines, rises) := get_dips_and_momentum data t in
    (forall r, In r declines <->
               In r data /\ return_pct r <> nan
               /\ (return_pct r <=? - t)%float = true)
    /\ (forall r, In r rises <->
                  In r data /\ return_pct r <> nan
                  /\ (t <=? return_pct r)%float = true)
    /\ Permutation declines (filter (is_decline t) data)
    /\ Permutation rises (filter (is_rise t) data)
    /\ (forall r, return_pct r = nan -> ~ In r declines /\ ~ In r rises)
    /\ get_dips_and_momentum [mkRow "E" 1 90 (-10)%float] 10
       = ([mkRow "E" 1 90 (-10)%float], [])
    /\ get_dips_and_momentum [mkRow "E" 1 90 (-9.99)%float] 10 = ([], []).
Proof.
  intros data t Ht.
  rewrite EventFacts.get_dips_and_momentum_eq.
  rewrite (FloatFacts.abs_pos t Ht).
  assert (Hd : forall r, In r (sort event_le (filter (is_decline t) data)) <->
                         In r data /\ return_pct r <> nan
                         /\ (return_pct r <=? - t)%float = true).
  { intros r. rewrite sort_In, filter_In. unfold is_decline.
    rewrite andb_true_iff, negb_true_iff, FloatFacts.isna_false. tauto. }
  assert (Hr : forall r, In r (sort event_le (filter (is_rise t) data)) <->
                         In r data /\ return_pct r <> nan
                         /\ (t <=? return_pct r)%float = true).
  { intros r. rewrite sort_In, filter_In. unfold is_rise.
    rewrite andb_true_iff, negb_true_iff, FloatFacts.isna_false. tauto. }
  split; [exact Hd |]. split; [exact Hr |].
  split; [apply sort_perm |]. split; [apply sort_perm |].
  split; [| split; reflexivity].
  intros r Hna. split; intros H0; [apply Hd in H0 | apply Hr in H0]; tauto.
Qed.

Lemma events_exactly_beyond_threshold_witness :
  (0 <? 10)%float = true
  /\ let (declines, rises) :=
       get_dips_and_momentum
         [mkRow "A" 1 100 nan; mkRow "A" 2 90 (-10)%float;
          mkRow "A" 3 108 20%float] 10 in
     Permutation declines
       (filter (is_decline 10)
          [mkRow "A" 1 100 nan; mkRow "A" 2 90 (-10)%float;
           mkRow "A" 3 108 20%float]).
Proof.
  split; [reflexivity |].
  exact (proj1 (proj2 (proj2
    (events_exactly_beyond_threshold
       [mkRow "A" 1 100 nan; mkRow "A" 2 90 (-10)%float;
        mkRow "A" 3 108 20%float] 10%float eq_refl)))).
Defined.

(** C3, as the code has it.  Both tables of the Event Extractor are
    sorted by time stamp (the date with its time of day) from the latest
    to the earliest, and rows of the same time stamp by company name in
    increasing order: two rows that qualify at the same time stamp for
    the companies "B" and "A" come out as A, then B.  When no time stamp
    of the data has a time of day, the tables are sorted by day, and
    rows of the same day by company name. *)
Theorem events_sorted_date_desc_company_asc :
  forall (data : list Row) (t : float),
    let (declines, rises) := get_dips_and_momentum data t in
    StronglySorted date_desc_company_asc declines
    /\ StronglySorted date_desc_company_asc rises
    /\ (forall ticks_per_day : Z,
          (0 < ticks_per_day)%Z ->
          (forall r, In r data -> (date r mod ticks_per_day = 0)%Z) ->
          StronglySorted (day_desc_company_asc ticks_per_day) declines
          /\ StronglySorted (day_desc_company_asc ticks_per_day) rises)
    /\ map company
         (fst (get_dips_and_momentum
                 [mkRow "B" 7 80 (-20)%float; mkRow "A" 7 40 (-20)%float] 10))
       = ["A"; "B"]
    /\ map company
         (snd (get_dips_and_momentum
                 [mkRow "B" 7 80 20%float; mkRow "A" 7 40 20%float] 10))
       = ["A"; "B"].
Proof.
  intros data t. rewrite EventFacts.get_dips_and_momentum_eq.
  split; [apply EventFacts.sort_event_sorted |].
  split; [apply EventFacts.sort_event_sorted |].
  split; [| split; reflexivity].
  intros ticks Ht Hm.
  split; now apply EventFacts.sort_event_sorted_days.
Qed.

Lemma events_sorted_date_desc_company_asc_witness :
  let (declines, rises) :=
    get_dips_and_momentum
      [mkRow "B" 168 80 (-20)%float; mkRow "A" 168 40 (-20)%float;
       mkRow "A" 192 30 (-25)%float] 10 in
  map company declines = ["A"; "A"; "B"]
  /\ StronglySorted (day_desc_company_asc 24) declines.
Proof.
  assert (H := events_sorted_date_desc_company_asc
                 [mkRow "B" 168 80 (-20)%float; mkRow "A" 168 40 (-20)%float;
                  mkRow "A" 192 30 (-25)%float] 10).
  assert (E : map company
                (fst (get_dips_and_momentum
                        [mkRow "B" 168 80 (-20)%float;
                         mkRow "A" 168 40 (-20)%float;
                         mkRow "A" 192 30 (-25)%float] 10))
              = ["A"; "A"; "B"]) by reflexivity.
  destruct (get_dips_and_momentum
              [mkRow "B" 168 80 (-20)%float; mkRow "A" 168 40 (-20)%float;
               mkRow "A" 192 30 (-25)%float] 10) as [declines rises].
  split; [exact E |].
  refine (proj1 (proj1 (proj2 (proj2 H)) 24%Z eq_refl _)).
  intros r [<- | [<- | [<- | []]]]; reflexivity.
Defined.

(** C3, as stated, fails: the Loader keeps the time of day of a date
    and the Event Extractor sorts on the whole time stamp, so two rows
    of the same day (the day 7, at 9 and at 10 o'clock, in hours) come
    out by time and not by company: B, then A. *)
Lemma events_same_day_ordered_by_time :
  dt_date 24 177 = dt_date 24 178
  /\ map company
       (fst (get_dips_and_momentum
               [mkRow "A" 177 40 (-20)%float; mkRow "B" 178 80 (-20)%float]
               10))
     = ["B"; "A"]
  /\ ~ StronglySorted (day_desc_company_asc 24)
         (fst (get_dips_and_momentum
                 [mkRow "A" 177 40 (-20)%float; mkRow "B" 178 80 (-20)%float]
                 10)).
Proof.
  split; [reflexivity |]. split; [reflexivity |].
  intros H. apply StronglySorted_inv in H. destruct H as [_ H].
  apply Forall_inv in H. destruct H as [H | [_ H]]; [| discriminate].
  vm_compute in H. discriminate.
Qed.

(** C10.  The tables of the Event Extractor do not depend on the sign of
    the threshold: [t], [- t] and [abs t] give the same two tables,
    whatever [t] is. *)
Theorem events_invariant_under_threshold_sign :
  forall (data : list Row) (t : float),
    get_dips_and_momentum data (- t)%float = get_dips_and_momentum data t
    /\ get_dips_and_momentum data (abs t) = get_dips_and_momentum data t.
Proof.
  intros data t. rewrite !EventFacts.get_dips_and_momentum_eq.
  now rewrite FloatFacts.abs_opp, FloatFacts.abs_abs.
Qed.

(* ================================================================== *)
(** ** Return Calculator *)

Module ReturnFacts.

Local Open Scope float_scope.

Lemma add_returns_from_start (data : list Point) :
  add_returns data = add_returns_from (fun _ => None) data.
Proof. reflexivity. Qed.

Lemma point_of_add_returns_from (data : list Point) :
  forall prev, map point_of (add_returns_from prev data) = data.
Proof.
  induction data as [| [c d x] data IH]; intros prev; [reflexivity |].
  unfold add_returns_from in *. simpl. f_equal. apply IH.
Qed.

(** Within the rows of one company the first return comes from the
    price that [prev] holds for it, every other one from the row
    before. *)
Lemma group_returns (c : string) (data : list Point) :
  forall prev,
    let rs := group c (add_returns_from prev data) in
    (forall r, nth_error rs 0 = Some r ->
               return_pct r
               = match prev c with
                 | Some p0 => (price r / p0 - 1) * 100
                 | None => nan
                 end)
    /\ (forall i r0 r1,
           nth_error rs i = Some r0 -> nth_error rs (S i) = Some r1 ->
           return_pct r1 = (price r1 / price r0 - 1) * 100).
Proof.
  induction data as [| [c0 d0 x0] data IH]; intros prev.
  - split; [intros r H | intros [| i] r0 r1 H]; discriminate H.
  - unfold add_returns_from, group in *. simpl.
    specialize (IH (fun c' => if String.eqb c' c0 then Some x0 else prev c')).
    simpl in IH. destruct IH as [IH0 IHS].
    destruct (String.eqb c0 c) eqn:E.
    + apply String.eqb_eq in E. subst c0.
      rewrite String.eqb_refl in IH0.
      split.
      * intros r H. injection H as <-. simpl.
        destruct (prev c); reflexivity.
      * intros [| i] r0 r1 H0 H1; simpl in H0, H1.
        -- injection H0 as <-. simpl. now apply IH0.
        -- now apply (IHS i).
    + assert (E' : String.eqb c c0 = false) by now rewrite String.eqb_sym.
      rewrite E' in IH0. split; assumption.
Qed.

Lemma sorted_map {A B : Type} (R : B -> B -> Prop) (f : A -> B) (l : list A) :
  StronglySorted R (map f l) -> StronglySorted (fun a b => R (f a) (f b)) l.
Proof.
  induction l as [| x l IH]; simpl; intros H; [constructor |].
  apply StronglySorted_inv in H. destruct H as [H1 H2].
  constructor; [now apply IH |].
  rewrite Forall_forall in *. intros y Hy. apply H2. now apply in_map.
Qed.

Lemma sorted_weaken_on {A : Type} (P : A -> Prop) (R R' : A -> A -> Prop)
    (l : list A) :
  (forall a b, P a -> P b -> R a b -> R' a b) ->
  Forall P l -> StronglySorted R l -> StronglySorted R' l.
Proof.
  intros HR HP. induction 1 as [| x l Hl IH Hx]; [constructor |].
  apply Forall_cons_iff in HP. destruct HP as [Px Pl].
  constructor; [now apply IH |].
  rewrite Forall_forall in *. intros y Hy. apply HR; auto.
Qed.

Lemma point_le_same_company (a b : Point) :
  p_company a = p_company b -> point_le a b = true ->
  (p_date a <= p_date b)%Z.
Proof.
  unfold point_le. intros ->. rewrite StrFacts.compare_refl.
  apply Z.leb_le.
Qed.

Lemma group_chronological (c : string) (data : list Point) :
  sorted_by_company_date data -> chronological (group c (add_returns data)).
Proof.
  intros Hs. unfold chronological, group.
  apply (sorted_weaken_on (fun r => company r = c)
           (fun a b => point_le (point_of a) (point_of b) = true)).
  - intros a b Ha Hb. apply point_le_same_company. simpl. congruence.
  - apply Forall_forall. intros r Hr. apply filter_In in Hr.
    now apply String.eqb_eq.
  - apply sorted_filter.
    apply (sorted_map (fun a b => point_le a b = true) point_of).
    rewrite add_returns_from_start, point_of_add_returns_from. exact Hs.
Qed.

Lemma point_le_total (a b : Point) : point_le a b = false -> point_le b a = true.
Proof.
  unfold point_le. rewrite (String.compare_antisym (p_company b) (p_company a)).
  destruct (String.compare (p_company a) (p_company b)); simpl;
    try discriminate; try reflexivity.
  rewrite Z.leb_gt, Z.leb_le. lia.
Qed.

Lemma point_le_trans (a b c : Point) :
  point_le a b = true -> point_le b c = true -> point_le a c = true.
Proof.
  unfold point_le. intros Hab Hbc.
  assert (Hac : String.compare (p_company a) (p_company c) <> Gt).
  { apply (StrFacts.compare_not_gt_trans _ (p_company b)).
    - destruct (String.compare (p_company a) (p_company b)); congruence.
    - destruct (String.compare (p_company b) (p_company c)); congruence. }
  destruct (String.compare (p_company a) (p_company c)) eqn:E;
    [| reflexivity | congruence].
  apply StrFacts.compare_eq in E. rewrite E in Hab.
  rewrite (String.compare_antisym (p_company c) (p_company b)) in Hab.
  destruct (String.compare (p_company b) (p_company c)); simpl in Hab;
    try discriminate.
  apply Z.leb_le in Hab, Hbc. apply Z.leb_le. lia.
Qed.

(** What the Loader sorts is sorted by company and date. *)
Lemma sort_point_sorted (data : list Point) :
  sorted_by_company_date (sort point_le data).
Proof. apply sort_sorted; [apply point_le_total | apply point_le_trans]. Qed.

End ReturnFacts.

(** C1, as the code has it.  On a table sorted by company and date the
    Return Calculator keeps the rows and their order; the rows of each
    company are in chronological order, the first of them has no return
    and every other one has the return [100 * (p_i / p_(i-1) - 1)]
    computed in binary64 arithmetic.  For the prices 100, 110, 99 these
    are no return, [10.000000000000009] and [-9.9999999999999982]. *)
Theorem returns_per_company :
  forall (data : list Point),
    sorted_by_company_date data ->
    forall c : string,
      let rs := group c (add_returns data) in
      map point_of (add_returns data) = data
      /\ chronological rs
      /\ (forall r, nth_error rs 0 = Some r -> return_pct r = nan)
      /\ (forall i r0 r1,
             nth_error rs i = Some r0 -> nth_error rs (S i) = Some r1 ->
             return_pct r1 = (100 * (price r1 / price r0 - 1))%float)
      /\ map return_pct
            (add_returns [mkPoint "E" 1 100; mkPoint "E" 2 110; mkPoint "E" 3 99])
          = [nan; 10.000000000000009; -9.9999999999999982]%float.
Proof.
  intros data Hs c rs.
  destruct (ReturnFacts.group_returns c data (fun _ => None)) as [H0 HS].
  split; [apply ReturnFacts.point_of_add_returns_from |].
  split; [now apply ReturnFacts.group_chronological |].
  split; [exact H0 |].
  split; [| reflexivity].
  intros i r0 r1 Hi HSi. rewrite FloatFacts.mul_comm. now apply (HS i).
Qed.

Lemma returns_per_company_witness :
  sorted_by_company_date
    [mkPoint "A" 1 50; mkPoint "A" 2 100; mkPoint "B" 1 8]
  /\ chronological
       (group "A"
          (add_returns [mkPoint "A" 1 50; mkPoint "A" 2 100; mkPoint "B" 1 8])).
Proof.
  assert (Hs : sorted_by_company_date
                 [mkPoint "A" 1 50; mkPoint "A" 2 100; mkPoint "B" 1 8]).
  { unfold sorted_by_company_date.
    repeat (constructor; [| repeat (constructor; try reflexivity)]).
    constructor. }
  split; [exact Hs |].
  exact (proj1 (proj2 (returns_per_company _ Hs "A"))).
Defined.

(** C1, as stated, fails on its example: for the prices 100, 110, 99 the
    returns computed are not no return, [10.0], [-10.0]. *)
Lemma returns_example_not_exact :
  map return_pct
    (add_returns [mkPoint "E" 1 100; mkPoint "E" 2 110; mkPoint "E" 3 99])
  <> [nan; 10; -10]%float.
Proof.
  intros H.
  apply (f_equal (fun l => match l with
                           | [_; x; _] => (x =? 10)%float
                           | _ => true
                           end)) in H.
  vm_compute in H. discriminate H.
Qed.

(* ================================================================== *)
(** ** Entity Resolver *)

Module ResolverFacts.

Lemma prefix_spec (k s : string) :
  String.prefix k s = true <-> exists b, s = (k ++ b)%string.
Proof.
  revert s. induction k as [| c k IH]; intros s; simpl.
  - destruct s; split; eauto.
  - destruct s as [| d s]; simpl.
    + split; [discriminate | intros [b H]; discriminate].
    + destruct (ascii_dec c d) as [-> | N].
      * rewrite IH. split; intros [b H]; exists b; congruence.
      * split; [discriminate | intros [b H]; congruence].
Qed.

(** [Str.contains] is the search for a substring. *)
Lemma contains_spec (k s : string) :
  Str.contains k s = true <-> exists a b, s = (a ++ k ++ b)%string.
Proof.
  induction s as [| d s IH].
  - cbn [Str.contains]. rewrite orb_false_r, prefix_spec. split.
    + intros [b H]. now exists EmptyString, b.
    + intros [[| c a] [b H]]; [now exists b | discriminate].
  - cbn [Str.contains]. rewrite orb_true_iff, prefix_spec, IH. split.
    + intros [[b H] | [a [b H]]].
      * now exists EmptyString, b.
      * exists (String d a), b. simpl. now rewrite H.
    + intros [[| c a] [b H]].
      * left. now exists b.
      * right. exists a, b. simpl in H. congruence.
Qed.

Lemma first_label_match (table pre post : list (string * string))
    (key label lower_name : string) :
  table = pre ++ (key, label) :: post ->
  Str.contains key lower_name = true ->
  (forall k l, In (k, l) pre -> Str.contains k lower_name = false) ->
  first_label table lower_name = Some label.
Proof.
  intros -> Hk. induction pre as [| [k l] pre IH]; intros Hpre; simpl.
  - now rewrite Hk.
  - rewrite (Hpre k l) by now left.
    apply IH. intros k' l' H'. apply (Hpre k' l'). now right.
Qed.

Lemma first_label_none (table : list (string * string)) (lower_name : string) :
  (forall k l, In (k, l) table -> Str.contains k lower_name = false) <->
  first_label table lower_name = None.
Proof.
  induction table as [| [k l] table IH]; simpl.
  - split; [reflexivity | intros _ k l []].
  - split.
    + intros H. rewrite (H k l) by now left.
      apply IH. intros k' l' H'. apply (H k' l'). now right.
    + destruct (Str.contains k lower_name) eqn:E; [discriminate |].
      intros H k' l' [H' | H']; [congruence | now apply (proj2 IH H k' l')].
Qed.

Lemma before_last_dot_none (s : string) :
  Str.has_char "." s = false -> Str.before_last_dot s = None.
Proof.
  induction s as [| c s IH]; simpl; [reflexivity |].
  intros H. apply orb_false_iff in H. destruct H as [Hc Hs].
  now rewrite (IH Hs), Hc.
Qed.

Lemma before_last_dot_app (base ext : string) :
  Str.has_char "." ext = false ->
  Str.before_last_dot (base ++ String "." ext) = Some base.
Proof.
  intros H. induction base as [| c base IH]; simpl.
  - now rewrite (before_last_dot_none ext H).
  - now rewrite IH.
Qed.

Lemma label_not_empty (k l : string) :
  In (k, l) COMPANY_LABELS -> l <> EmptyString.
Proof.
  simpl. intros H.
  repeat (destruct H as [H | H]; [injection H as <- <-; discriminate |]).
  destruct H.
Qed.

Lemma first_label_In (table : list (string * string)) (n l : string) :
  first_label table n = Some l -> exists k, In (k, l) table.
Proof.
  induction table as [| [k0 l0] table IH]; simpl; [discriminate |].
  destruct (Str.contains k0 n).
  - intros H. injection H as <-. exists k0. now left.
  - intros H. destruct (IH H) as [k Hk]. exists k. now right.
Qed.

End ResolverFacts.

(** C6.  The Entity Resolver looks each alias of the table up, in the
    order of the table, as a substring of the lower-cased label, and
    returns the name of the first alias found; when none is found it
    returns the label without its last dot and what follows it.
    [resolve "Boeing Stock Price History.csv" = "Boeing"] and
    [resolve "unknown_ticker.csv" = "unknown_ticker"].  It is a function:
    it returns a string on every label. *)
Theorem resolver_first_alias_else_stem :
  forall filename : string,
    (forall key s, Str.contains key s = true <->
                   exists a b, s = (a ++ key ++ b)%string)
    /\ (forall pre key label post,
          COMPANY_LABELS = pre ++ (key, label) :: post ->
          Str.contains key (Str.lower filename) = true ->
          (forall k l, In (k, l) pre ->
                       Str.contains k (Str.lower filename) = false) ->
          infer_company_name filename = label)
    /\ ((forall k l, In (k, l) COMPANY_LABELS ->
                     Str.contains k (Str.lower filename) = false) ->
        (forall base ext,
            filename = (base ++ "." ++ ext)%string ->
            Str.has_char "." ext = false ->
            infer_company_name filename = base)
        /\ (Str.has_char "." filename = false ->
            infer_company_name filename = filename))
    /\ infer_company_name "Boeing Stock Price History.csv" = "Boeing"
    /\ infer_company_name "BOEING stock.CSV" = "Boeing"
    /\ infer_company_name "unknown_ticker.csv" = "unknown_ticker".
Proof.
  intros filename.
  split; [apply ResolverFacts.contains_spec |].
  split.
  { intros pre key label post Ht Hk Hpre. unfold infer_company_name.
    now rewrite (ResolverFacts.first_label_match _ pre post key label _ Ht Hk Hpre). }
  split; [| repeat split].
  intros Hnone. apply ResolverFacts.first_label_none in Hnone.
  unfold infer_company_name. rewrite Hnone. unfold Str.rsplit_dot_head. split.
  - intros base ext -> Hext. simpl.
    now rewrite (ResolverFacts.before_last_dot_app base ext Hext).
  - intros Hdot. now rewrite (ResolverFacts.before_last_dot_none _ Hdot).
Qed.

Lemma resolver_first_alias_else_stem_witness :
  infer_company_name "rtx corp and boeing.csv" = "RTX Corp"
  /\ infer_company_name "my.prices.csv" = "my.prices".
Proof.
  split.
  - apply (proj1 (proj2 (resolver_first_alias_else_stem "rtx corp and boeing.csv"))
             [("general dynamics", "General Dynamics");
              ("lockheed martin", "Lockheed Martin");
              ("northrop grumman", "Northrop Grumman")]
             "rtx corp" "RTX Corp" [("boeing", "Boeing")]).
    + reflexivity.
    + reflexivity.
    + intros k l H. simpl in H.
      repeat (destruct H as [H | H]; [injection H as <- <-; reflexivity |]).
      destruct H.
  - refine (proj1 (proj1 (proj2 (proj2
               (resolver_first_alias_else_stem "my.prices.csv"))) _)
              "my.prices" "csv" _ _).
    + intros k l H. simpl in H.
      repeat (destruct H as [H | H]; [injection H as <- <-; reflexivity |]).
      destruct H.
    + reflexivity.
    + reflexivity.
Defined.

(* ================================================================== *)
(** ** Value Normalizer *)

Module NormalizerFacts.

Lemma has_char_remove_same (c : ascii) (s : string) :
  Str.has_char c (Str.remove_char c s) = false.
Proof.
  induction s as [| d s IH]; simpl; [reflexivity |].
  destruct (Ascii.eqb d c) eqn:E; [exact IH |].
  simpl. now rewrite E.
Qed.

Lemma has_char_remove_other (c d : ascii) (s : string) :
  Str.has_char c s = false -> Str.has_char c (Str.remove_char d s) = false.
Proof.
  induction s as [| e s IH]; simpl; [reflexivity |].
  intros H. apply orb_false_iff in H. destruct H as [He Hs].
  destruct (Ascii.eqb e d); [now apply IH |].
  simpl. now rewrite He, IH.
Qed.



























End NormalizerFacts.



(* ================================================================== *)
(** ** Loader/Consolidator *)

Section LoaderFacts.

Variable to_datetime : string -> option Z.

Lemma occurrences_filter (col : string) (df : Csv) :
  List.length
    (filter (fun cc : string * list string => String.eqb (fst cc) col) df)
  = occurrences col (map fst df).
Proof.
  unfold occurrences. induction df as [| cc df IH]; [reflexivity |]. simpl.
  destruct (String.eqb (fst cc) col); simpl; now rewrite IH.
Qed.

Lemma existsb_occurrences (col : string) (names : list string) :
  existsb (String.eqb col) names = (1 <=? occurrences col names)%nat.
Proof.
  unfold occurrences. induction names as [| n names IH]; [reflexivity |].
  simpl. rewrite (String.eqb_sym col n).
  destruct (String.eqb n col); [reflexivity | exact IH].
Qed.

Lemma issubset_occurrences (df : Csv) :
  issubset required_cols df
  = ((1 <=? occurrences "Date" (map fst df))%nat
     && (1 <=? occurrences "Price" (map fst df))%nat).
Proof.
  unfold issubset, required_cols. cbn [forallb].
  now rewrite !existsb_occurrences, andb_true_r.
Qed.

(** [df[col]] by the number of columns of that name. *)
Lemma getitem_occurrences (col : string) (df : Csv) :
  match getitem col df with
  | KeyError => occurrences col (map fst df) = 0%nat
  | Series _ => occurrences col (map fst df) = 1%nat
  | Columns _ => (2 <= occurrences col (map fst df))%nat
  end.
Proof.
  rewrite <- occurrences_filter. unfold getitem.
  destruct (filter _ df) as [| cc [| cc' l]]; simpl; [reflexivity .. | lia].
Qed.

Lemma map_fst_strip (df0 : Csv) :
  map fst (map (fun cc : string * list string => (Str.strip (fst cc), snd cc)) df0)
  = map (fun cc : string * list string => Str.strip (fst cc)) df0.
Proof. rewrite map_map. reflexivity. Qed.

Lemma make_temp_lines (c : string) (dates prices : list string) :
  make_temp c (map to_datetime dates) (clean_numeric_column prices)
  = flat_map (line_row to_datetime c) (combine dates prices).
Proof.
  revert prices.
  induction dates as [| d dates IH]; intros [| x prices]; simpl; try reflexivity.
  unfold line_row at 1. simpl.
  destruct (to_datetime d) as [t |]; [| apply IH].
  destruct (Num.isna (clean_numeric x)); simpl; now rewrite <- IH.
Qed.

(** The three ways of the body of the loop. *)
Lemma file_frame_cases (u : Upload) :
  file_frame to_datetime u
  = if negb (readable u) then Raised
    else if negb ((1 <=? occurrences "Date" (header u))%nat
                  && (1 <=? occurrences "Price" (header u))%nat)
    then Ok None
    else if (2 <=? occurrences "Date" (header u))%nat
            || (2 <=? occurrences "Price" (header u))%nat
    then Raised
    else Ok (Some (flat_map (line_row to_datetime (infer_company_name (name u)))
                            (cell_lines u))).
Proof.
  unfold file_frame, header, cell_lines, readable.
  assert (R : read_csv u = Raised /\ read_default u = None /\ read_latin1 u = None
              \/ exists df0, read_csv u = Ok df0
                             /\ (match read_default u, read_latin1 u with
                                 | None, None => false
                                 | _, _ => true
                                 end) = true).
  { unfold read_csv.
    destruct (read_default u) as [df0 |]; [right; now exists df0 |].
    destruct (read_latin1 u) as [df0 |]; [right; now exists df0 | now left]. }
  destruct R as [[-> [-> ->]] | [df0 [-> ->]]]; [reflexivity |].
  cbn [negb]. cbv zeta.
  set (df := map (fun cc : string * list string => (Str.strip (fst cc), snd cc)) df0).
  rewrite issubset_occurrences. unfold df at 1 2. rewrite map_fst_strip.
  fold df.
  set (names := map (fun cc : string * list string => Str.strip (fst cc)) df0).
  assert (Hd := getitem_occurrences "Date" df).
  assert (Hp := getitem_occurrences "Price" df).
  unfold df in Hd, Hp. rewrite map_fst_strip in Hd, Hp. fold df names in Hd, Hp.
  destruct (getitem "Date" df) as [| dates | cols];
    destruct (getitem "Price" df) as [| prices | cols'];
    destruct (occurrences "Date" names) as [| [| nd]];
    destruct (occurrences "Price" names) as [| [| np]];
    try lia; cbn [Nat.leb negb andb orb]; try reflexivity.
  now rewrite make_temp_lines.
Qed.

Lemma file_frame_raised (u : Upload) :
  file_frame to_datetime u = Raised <-> processable u = false.
Proof.
  rewrite file_frame_cases. unfold processable, duplicated_required.
  destruct (readable u); cbn [negb andb]; [| tauto].
  destruct (occurrences "Date" (header u)) as [| [| nd]];
    destruct (occurrences "Price" (header u)) as [| [| np]];
    cbn [Nat.leb negb andb orb]; split; try discriminate; reflexivity.
Qed.

Lemma cell_lines_unreadable (u : Upload) :
  readable u = false -> cell_lines u = [].
Proof.
  unfold cell_lines, readable, read_csv.
  destruct (read_default u); [discriminate |].
  destruct (read_latin1 u); [discriminate | reflexivity].
Qed.

Lemma cell_lines_nil (u : Upload) :
  occurrences "Date" (header u) <> 1%nat
  \/ occurrences "Price" (header u) <> 1%nat ->
  cell_lines u = [].
Proof.
  unfold cell_lines, header.
  destruct (read_csv u) as [df0 |]; [| reflexivity]. cbv zeta.
  set (df := map (fun cc : string * list string =>
                    (Str.strip (fst cc), snd cc)) df0).
  assert (Hd := getitem_occurrences "Date" df).
  assert (Hp := getitem_occurrences "Price" df).
  unfold df in Hd, Hp. rewrite map_fst_strip in Hd, Hp. fold df in Hd, Hp.
  destruct (getitem "Date" df); [reflexivity | | reflexivity].
  destruct (getitem "Price" df); [reflexivity | | reflexivity].
  intros [H | H]; congruence.
Qed.

(** The valid rows of a file are the rows of its valid lines. *)
Lemma valid_rows_lines (u : Upload) :
  valid_rows to_datetime u
  = flat_map (line_row to_datetime (infer_company_name (name u)))
             (cell_lines u).
Proof.
  unfold valid_rows. rewrite file_frame_cases.
  destruct (readable u) eqn:R; cbn [negb];
    [| now rewrite cell_lines_unreadable].
  destruct (occurrences "Date" (header u)) as [| [| nd]] eqn:Ed;
    destruct (occurrences "Price" (header u)) as [| [| np]] eqn:Ep;
    cbn [Nat.leb negb andb orb]; try reflexivity;
    rewrite cell_lines_nil; try reflexivity; rewrite Ed, Ep; lia.
Qed.

(** The loop goes through the files as long as none makes it raise. *)
Lemma load_frames_spec (files : list Upload) :
  forall frames warnings,
    load_frames to_datetime files frames warnings
    = if forallb processable files
      then Ok (frames ++ frames_of to_datetime files,
               warnings
               ++ map name (filter (lacks_columns to_datetime) files))
      else Raised.
Proof.
  induction files as [| u files IH]; intros frames warnings; simpl.
  - now rewrite !app_nil_r.
  - unfold lacks_columns.
    destruct (file_frame to_datetime u) as [[temp |] |] eqn:E.
    + assert (R : processable u = true).
      { destruct (processable u) eqn:R; [reflexivity |].
        apply file_frame_raised in R. congruence. }
      rewrite R, IH. simpl.
      destruct (forallb processable files); [| reflexivity].
      now rewrite <- app_assoc.
    + assert (R : processable u = true).
      { destruct (processable u) eqn:R; [reflexivity |].
        apply file_frame_raised in R. congruence. }
      rewrite R, IH. simpl.
      destruct (forallb processable files); [| reflexivity].
      now rewrite <- app_assoc.
    + apply file_frame_raised in E. now rewrite E.
Qed.

Lemma load_and_transform_spec (files : list Upload) :
  load_and_transform to_datetime files
  = if forallb processable files
    then Ok (mkFrame ["company"; "date"; "price"; "return_pct"]
               (add_returns
                  (sort point_le (List.concat (frames_of to_datetime files)))),
             map name (filter (lacks_columns to_datetime) files))
    else Raised.
Proof.
  unfold load_and_transform. rewrite load_frames_spec. simpl.
  destruct (forallb processable files); [| reflexivity].
  destruct (frames_of to_datetime files); reflexivity.
Qed.

Lemma concat_frames_of (files : list Upload) :
  List.concat (frames_of to_datetime files)
  = flat_map (valid_rows to_datetime) files.
Proof.
  induction files as [| u files IH]; [reflexivity |].
  unfold frames_of, valid_rows in *. simpl.
  destruct (file_frame to_datetime u) as [[temp |] |]; simpl;
    rewrite ?app_nil_r; now rewrite IH.
Qed.

Lemma line_row_company (c : string) (l : string * string) (p : Point) :
  In p (line_row to_datetime c l) -> p_company p = c.
Proof.
  unfold line_row. destruct (to_datetime (fst l)); [| intros []].
  destruct (Num.isna (clean_numeric (snd l))); [intros [] |].
  intros [<- | []]. reflexivity.
Qed.

Lemma valid_rows_company (u : Upload) (p : Point) :
  In p (valid_rows to_datetime u) ->
  p_company p = infer_company_name (name u).
Proof.
  rewrite valid_rows_lines, in_flat_map. intros [l [_ H]].
  now apply line_row_company in H.
Qed.

(** The rows of the consolidated table are the valid rows of the
    files. *)
Lemma loaded_rows (files : list Upload) (df : DataFrame) (ws : list string) :
  load_and_transform to_datetime files = Ok (df, ws) ->
  Permutation (map point_of (rows df))
              (flat_map (valid_rows to_datetime) files).
Proof.
  rewrite load_and_transform_spec.
  destruct (forallb processable files); [| discriminate].
  intros H. injection H as <- _. simpl.
  rewrite ReturnFacts.add_returns_from_start,
    ReturnFacts.point_of_add_returns_from, <- concat_frames_of.
  apply sort_perm.
Qed.

(** The table of the Loader is the Return Calculator run on a table
    sorted by company and date. *)
Lemma loaded_table_sorted (files : list Upload) (df : DataFrame)
    (ws : list string) :
  load_and_transform to_datetime files = Ok (df, ws) ->
  exists data, sorted_by_company_date data /\ rows df = add_returns data.
Proof.
  rewrite load_and_transform_spec.
  destruct (forallb processable files); [| discriminate].
  intros H. injection H as <- _.
  exists (sort point_le (List.concat (frames_of to_datetime files))).
  split; [apply ReturnFacts.sort_point_sorted | reflexivity].
Qed.








End LoaderFacts.







(** C9, as the code has it.  The company of every row of the
    consolidated table is the label that the Entity Resolver gives to
    the name of one of the inputs; it is empty only when that name
    contains no alias and has nothing before its last dot. *)
Theorem entity_is_resolved_label :
  forall (to_datetime : string -> option Z) (files : list Upload)
         (df : DataFrame) (ws : list string),
    load_and_transform to_datetime files = Ok (df, ws) ->
    forall r, In r (rows df) ->
      exists u,
        In u files
        /\ company r = infer_company_name (name u)
        /\ (company r = "" ->
            first_label COMPANY_LABELS (Str.lower (name u)) = None
            /\ Str.rsplit_dot_head (name u) = "").
Proof.
  intros td files df ws Hload r Hr.
  assert (Hp : In (point_of r) (flat_map (valid_rows td) files)).
  { apply (Permutation_in _ (loaded_rows td files df ws Hload)).
    now apply in_map. }
  apply in_flat_map in Hp. destruct Hp as [u [Hu Hp]].
  apply valid_rows_company in Hp. simpl in Hp.
  exists u. split; [exact Hu |]. split; [exact Hp |].
  rewrite Hp. unfold infer_company_name.
  destruct (first_label COMPANY_LABELS (Str.lower (name u))) as [l |] eqn:E.
  - intros ->. apply ResolverFacts.first_label_In in E. destruct E as [k Hk].
    now apply ResolverFacts.label_not_empty in Hk.
  - intros H. now split.
Qed.

Lemma entity_is_resolved_label_witness :
  exists u,
    In u [mkUpload "Boeing.csv" None
            (Some [("Date", ["2024-01-02"]); ("Price", ["1,000.5"])])]
    /\ "Boeing" = infer_company_name (name u)
    /\ ("Boeing" = "" ->
        first_label COMPANY_LABELS (Str.lower (name u)) = None
        /\ Str.rsplit_dot_head (name u) = "").
Proof.
  apply (entity_is_resolved_label iso_date
           [mkUpload "Boeing.csv" None
              (Some [("Date", ["2024-01-02"]); ("Price", ["1,000.5"])])]
           (mkFrame ["company"; "date"; "price"; "return_pct"]
                    [mkRow "Boeing" 19724 1000.5 nan])
           [] eq_refl (mkRow "Boeing" 19724 1000.5 nan)).
  now left.
Defined.

(** C9, as stated, fails: the input named ".csv" gives a row whose
    company is the empty string. *)
Lemma entity_can_be_empty :
  infer_company_name ".csv" = ""
  /\ load_and_transform iso_date
       [mkUpload ".csv" (Some [("Date", ["2024-01-02"]); ("Price", ["10"])]) None]
     = Ok (mkFrame ["company"; "date"; "price"; "return_pct"]
                   [mkRow "" 19724 10 nan], []).
Proof.
  split; reflexivity.
Qed.

(* ================================================================== *)
(** ** The order of binary64 numbers *)

Module FloatOrder.

Local Open Scope float_scope.

Ltac compare_cases :=
  repeat match goal with
         | |- context [Z.compare ?a ?b] => destruct (Z.compare_spec a b)
         | |- context [Pos.compare_cont Eq ?a ?b] =>
             change (Pos.compare_cont Eq a b) with (Pos.compare a b);
             destruct (Pos.compare_spec a b)
         end.

Lemma SFcompare_key (x y : spec_float) :
  x <> S754_nan -> y <> S754_nan ->
  exists c, SFcompare x y = Some c
            /\ (c = Lt <-> key_lt (key x) (key y))
            /\ (c <> Gt <-> key_le (key x) (key y)).
Proof.
  intros Hx Hy.
  destruct x as [sx | sx | | sx mx ex]; try congruence;
    destruct y as [sy | sy | | sy my ey]; try congruence;
    try destruct sx; try destruct sy; cbn;
    compare_cases; subst;
    eexists; (split; [reflexivity |]);
    split; split; intros Hc; cbn [CompOpp] in *;
    try discriminate; try congruence; try lia; try (exfalso; lia).
Qed.

Lemma not_nan_spec (x : float) : x <> nan -> Prim2SF x <> S754_nan.
Proof.
  intros H E. apply H. apply Prim2SF_inj. now rewrite E.
Qed.

Lemma leb_key (x y : float) :
  x <> nan -> y <> nan ->
  ((x <=? y) = true <-> key_le (key (Prim2SF x)) (key (Prim2SF y))).
Proof.
  intros Hx Hy. rewrite leb_spec. unfold SFleb.
  destruct (SFcompare_key _ _ (not_nan_spec x Hx) (not_nan_spec y Hy))
    as [c [-> [_ H]]].
  rewrite <- H. destruct c; split; congruence.
Qed.

Lemma ltb_key (x y : float) :
  x <> nan -> y <> nan ->
  ((x <? y) = true <-> key_lt (key (Prim2SF x)) (key (Prim2SF y))).
Proof.
  intros Hx Hy. rewrite ltb_spec. unfold SFltb.
  destruct (SFcompare_key _ _ (not_nan_spec x Hx) (not_nan_spec y Hy))
    as [c [-> [H _]]].
  rewrite <- H. destruct c; split; congruence.
Qed.

Lemma fleb_refl (x : float) : x <> nan -> (x <=? x) = true.
Proof.
  intros Hx. apply (leb_key x x Hx Hx).
  destruct (key (Prim2SF x)) as [[a b] c]. simpl. lia.
Qed.

Lemma fleb_trans (x y z : float) :
  x <> nan -> y <> nan -> z <> nan ->
  (x <=? y) = true -> (y <=? z) = true -> (x <=? z) = true.
Proof.
  intros Hx Hy Hz. rewrite (leb_key x y), (leb_key y z), (leb_key x z) by assumption.
  destruct (key (Prim2SF x)) as [[a1 a2] a3], (key (Prim2SF y)) as [[b1 b2] b3],
           (key (Prim2SF z)) as [[c1 c2] c3].
  simpl. lia.
Qed.

Lemma ltb_leb (x y : float) :
  x <> nan -> y <> nan -> (x <? y) = true -> (x <=? y) = true.
Proof.
  intros Hx Hy. rewrite (ltb_key x y), (leb_key x y) by assumption.
  destruct (key (Prim2SF x)) as [[a1 a2] a3], (key (Prim2SF y)) as [[b1 b2] b3].
  simpl. lia.
Qed.

Lemma ltb_false_leb (x y : float) :
  x <> nan -> y <> nan -> (x <? y) = false -> (y <=? x) = true.
Proof.
  intros Hx Hy H. apply (leb_key y x Hy Hx).
  assert (N : ~ key_lt (key (Prim2SF x)) (key (Prim2SF y))).
  { rewrite <- (ltb_key x y Hx Hy). congruence. }
  destruct (key (Prim2SF x)) as [[a1 a2] a3], (key (Prim2SF y)) as [[b1 b2] b3].
  simpl in *. lia.
Qed.

End FloatOrder.

(* ================================================================== *)
(** ** Summary Aggregator *)

Module SummaryFacts.

Local Open Scope float_scope.

Lemma date_le_total (a b : Row) : date_le a b = false -> date_le b a = true.
Proof. unfold date_le. rewrite Z.leb_gt, Z.leb_le. lia. Qed.

Lemma date_le_trans (a b c : Row) :
  date_le a b = true -> date_le b c = true -> date_le a c = true.
Proof. unfold date_le. rewrite !Z.leb_le. lia. Qed.

Lemma dedup_In (l : list string) (x : string) : In x (dedup l) <-> In x l.
Proof.
  induction l as [| a l IH]; [reflexivity |].
  cbn [dedup]. destruct l as [| b l]; [reflexivity |].
  destruct (String.eqb a b) eqn:E.
  - apply String.eqb_eq in E. subst b. rewrite IH. simpl. tauto.
  - cbn [In]. rewrite IH. reflexivity.
Qed.

Lemma dedup_NoDup (l : list string) :
  StronglySorted (fun a b => String.leb a b = true) l -> NoDup (dedup l).
Proof.
  induction 1 as [| a l Hl IH Ha]; [constructor |].
  cbn [dedup]. destruct l as [| b l]; [repeat constructor; intros [] |].
  destruct (String.eqb a b) eqn:E; [exact IH |].
  constructor; [| exact IH].
  rewrite dedup_In. intros Hin.
  apply String.eqb_neq in E.
  rewrite Forall_forall in Ha.
  apply StronglySorted_inv in Hl. destruct Hl as [_ Hb].
  rewrite Forall_forall in Hb.
  destruct Hin as [-> | Hin]; [congruence |].
  apply E. apply String.leb_antisym.
  - apply Ha. now left.
  - now apply Hb.
Qed.

Lemma group_keys_In (data : list Row) (c : string) :
  In c (group_keys data) <-> In c (map company data).
Proof. unfold group_keys. now rewrite dedup_In, sort_In. Qed.

Lemma group_keys_NoDup (data : list Row) : NoDup (group_keys data).
Proof.
  apply dedup_NoDup, sort_sorted.
  - apply StrFacts.leb_total.
  - apply StrFacts.leb_trans.
Qed.

Lemma filter_absent_key (f : string -> Summary) (keys : list string)
    (c : string) :
  (forall k, Empresa (f k) = k) -> ~ In c keys ->
  filter (fun s => String.eqb (Empresa s) c) (map f keys) = [].
Proof.
  intros Hf. induction keys as [| k keys IH]; intros Hc; [reflexivity |].
  simpl. rewrite Hf. destruct (String.eqb k c) eqn:E.
  - apply String.eqb_eq in E. exfalso. apply Hc. now left.
  - apply IH. intros H. apply Hc. now right.
Qed.

(** Among records made one per key, the key selects its record. *)
Lemma filter_by_key (f : string -> Summary) (keys : list string) (c : string) :
  (forall k, Empresa (f k) = k) -> NoDup keys -> In c keys ->
  filter (fun s => String.eqb (Empresa s) c) (map f keys) = [f c].
Proof.
  intros Hf. induction 1 as [| k keys Hk Hnd IH]; intros Hin; [destruct Hin |].
  simpl. rewrite Hf. destruct (String.eqb k c) eqn:E.
  - apply String.eqb_eq in E. subst k.
    now rewrite (filter_absent_key f keys c Hf Hk).
  - apply String.eqb_neq in E. destruct Hin as [-> | Hin]; [congruence |].
    now apply IH.
Qed.

Lemma group_In (c : string) (data : list Row) (r : Row) :
  In r (group c data) <-> In r data /\ company r = c.
Proof. unfold group. now rewrite filter_In, String.eqb_eq. Qed.

Lemma group_not_nil (c : string) (data : list Row) :
  In c (map company data) -> group c data <> [].
Proof.
  intros H. apply in_map_iff in H. destruct H as [r [Hc Hr]].
  intros E. assert (Hin : In r (group c data)) by now apply group_In.
  rewrite E in Hin. destruct Hin.
Qed.

Lemma sort_date_sorted (l : list Row) :
  StronglySorted (fun a b => (date a <= date b)%Z) (sort date_le l).
Proof.
  assert (H := sort_sorted date_le date_le_total date_le_trans l).
  induction H as [| x l' Hl IH Hx]; constructor; [exact IH |].
  eapply Forall_impl; [| exact Hx]. intros y. apply Z.leb_le.
Qed.

(** The first row of the sorted group is an earliest row of the
    company, the last row a latest one. *)
Lemma first_of_sorted_group (c : string) (data : list Row) (r : Row)
    (l : list Row) :
  sort date_le (group c data) = r :: l -> earliest_row c data r.
Proof.
  intros E.
  assert (Hin : forall x, In x (r :: l) <-> In x data /\ company x = c).
  { intros x. now rewrite <- E, sort_In, group_In. }
  destruct (proj1 (Hin r) (or_introl eq_refl)) as [H1 H2].
  repeat split; [exact H1 | exact H2 |].
  intros r' Hr' Hc'.
  apply (sorted_head_least (fun a b => (date a <= date b)%Z) r l).
  - intros a. lia.
  - rewrite <- E. apply sort_date_sorted.
  - apply Hin. now split.
Qed.

Lemma last_of_sorted_group (c : string) (data : list Row) (r : Row)
    (l : list Row) :
  rev (sort date_le (group c data)) = r :: l -> latest_row c data r.
Proof.
  intros E.
  assert (E' : sort date_le (group c data) = rev l ++ [r]).
  { rewrite <- (rev_involutive (sort date_le (group c data))), E. reflexivity. }
  assert (Hin : forall x, In x (rev l ++ [r]) <-> In x data /\ company x = c).
  { intros x. now rewrite <- E', sort_In, group_In. }
  assert (Hr : In r (rev l ++ [r])) by (apply in_or_app; right; now left).
  destruct (proj1 (Hin r) Hr) as [H1 H2].
  repeat split; [exact H1 | exact H2 |].
  intros r' Hr' Hc'.
  apply (sorted_last_greatest (fun a b => (date a <= date b)%Z) (rev l) r).
  - intros a. lia.
  - rewrite <- E'. apply sort_date_sorted.
  - apply Hin. now split.
Qed.

Lemma dropna_not_nan (l : list float) (x : float) :
  In x (Np.dropna l) -> x <> nan.
Proof.
  unfold Np.dropna. rewrite filter_In, negb_true_iff.
  intros [_ H]. now apply FloatFacts.isna_false.
Qed.

Lemma fold_fmax (xs : list float) :
  forall x, (forall y, In y (x :: xs) -> y <> nan) ->
    In (fold_left Np.fmax xs x) (x :: xs)
    /\ forall y, In y (x :: xs) -> (y <=? fold_left Np.fmax xs x) = true.
Proof.
  induction xs as [| a xs IH]; intros x Hn.
  - simpl. split; [now left |]. intros y [<- | []].
    apply FloatOrder.fleb_refl, Hn. now left.
  - cbn [fold_left].
    assert (Hx : x <> nan) by (apply Hn; now left).
    assert (Ha : a <> nan) by (apply Hn; right; now left).
    assert (Hm : Np.fmax x a <> nan) by (unfold Np.fmax; now destruct (x <? a)).
    destruct (IH (Np.fmax x a)) as [H1 H2].
    { intros y [<- | Hy]; [exact Hm | apply Hn; right; now right]. }
    assert (Hr : fold_left Np.fmax xs (Np.fmax x a) <> nan).
    { destruct H1 as [<- | H1]; [exact Hm | apply Hn; right; now right]. }
    split.
    + destruct H1 as [H1 | H1].
      * rewrite <- H1. unfold Np.fmax.
        destruct (x <? a); [right; now left | now left].
      * right. now right.
    + assert (Hxm : (x <=? Np.fmax x a) = true /\ (a <=? Np.fmax x a) = true).
      { unfold Np.fmax. destruct (x <? a) eqn:E.
        - split; [now apply FloatOrder.ltb_leb | now apply FloatOrder.fleb_refl].
        - split; [now apply FloatOrder.fleb_refl
                 | now apply FloatOrder.ltb_false_leb]. }
      destruct Hxm as [Hxm Ham].
      assert (Hfm : (Np.fmax x a <=? fold_left Np.fmax xs (Np.fmax x a)) = true)
        by (apply H2; now left).
      intros y [<- | [<- | Hy]].
      * now apply (FloatOrder.fleb_trans x (Np.fmax x a)).
      * now apply (FloatOrder.fleb_trans a (Np.fmax x a)).
      * apply H2. now right.
Qed.

Lemma fold_fmin (xs : list float) :
  forall x, (forall y, In y (x :: xs) -> y <> nan) ->
    In (fold_left Np.fmin xs x) (x :: xs)
    /\ forall y, In y (x :: xs) -> (fold_left Np.fmin xs x <=? y) = true.
Proof.
  induction xs as [| a xs IH]; intros x Hn.
  - simpl. split; [now left |]. intros y [<- | []].
    apply FloatOrder.fleb_refl, Hn. now left.
  - cbn [fold_left].
    assert (Hx : x <> nan) by (apply Hn; now left).
    assert (Ha : a <> nan) by (apply Hn; right; now left).
    assert (Hm : Np.fmin x a <> nan) by (unfold Np.fmin; now destruct (a <? x)).
    destruct (IH (Np.fmin x a)) as [H1 H2].
    { intros y [<- | Hy]; [exact Hm | apply Hn; right; now right]. }
    assert (Hr : fold_left Np.fmin xs (Np.fmin x a) <> nan).
    { destruct H1 as [<- | H1]; [exact Hm | apply Hn; right; now right]. }
    split.
    + destruct H1 as [H1 | H1].
      * rewrite <- H1. unfold Np.fmin.
        destruct (a <? x); [right; now left | now left].
      * right. now right.
    + assert (Hxm : (Np.fmin x a <=? x) = true /\ (Np.fmin x a <=? a) = true).
      { unfold Np.fmin. destruct (a <? x) eqn:E.
        - split; [now apply FloatOrder.ltb_leb | now apply FloatOrder.fleb_refl].
        - split; [now apply FloatOrder.fleb_refl
                 | now apply FloatOrder.ltb_false_leb]. }
      destruct Hxm as [Hxm Ham].
      assert (Hfm : (fold_left Np.fmin xs (Np.fmin x a) <=? Np.fmin x a) = true)
        by (apply H2; now left).
      intros y [<- | [<- | Hy]].
      * now apply (FloatOrder.fleb_trans _ (Np.fmin x a)).
      * now apply (FloatOrder.fleb_trans _ (Np.fmin x a)).
      * apply H2. now right.
Qed.

Lemma max_greatest (l : list float) : greatest_of l (Np.max l).
Proof.
  unfold greatest_of, Np.max.
  destruct (Np.dropna l) as [| x xs] eqn:E; [reflexivity |].
  apply fold_fmax. intros y Hy. apply (dropna_not_nan l). now rewrite E.
Qed.

Lemma min_least (l : list float) : least_of l (Np.min l).
Proof.
  unfold least_of, Np.min.
  destruct (Np.dropna l) as [| x xs] eqn:E; [reflexivity |].
  apply fold_fmin. intros y Hy. apply (dropna_not_nan l). now rewrite E.
Qed.

Lemma std_few (l : list float) :
  (List.length (Np.dropna l) < 2)%nat -> Np.std l = nan.
Proof.
  intros H. unfold Np.std.
  destruct (Nat.leb_spec (List.length (Np.dropna l)) 1); [reflexivity | lia].
Qed.

End SummaryFacts.

(** C4.  For every company of the data the Summary Aggregator has one
    record, and each number of it is the stated quantity, rounded to two
    decimals as all the numbers of the summary are: the price of an
    earliest row, the price of a latest row, [100 * (last / first - 1)]
    when the first price is above zero and missing otherwise, the sample
    standard deviation of the returns of the company that are not
    missing (the square root of the sum of the squared distances to
    their mean, divided by their number less one; missing when there are
    fewer than two), and the greatest and the least of those returns.
    The quantities are computed from the numbers that are not rounded.
    The prices 50, 100 give the total return 100.0; a single row gives a
    missing volatility and the total return 0.0; the prices 3, 4 give
    33.33, and the returns 10, 20, 60 the volatility 26.46. *)
Theorem summary_record_rounded :
  forall (data : list Row) (c : string),
    In c (map company data) ->
    exists (s : Summary) (first last : Row) (up down : float),
      filter (fun s' => String.eqb (Empresa s') c) (compute_summary_stats data)
      = [s]
      /\ earliest_row c data first
      /\ latest_row c data last
      /\ Preco_inicial s = Np.round2 (price first)
      /\ Preco_final s = Np.round2 (price last)
      /\ Retorno_total s
         = Np.round2 (if (0 <? price first)%float
                      then (100 * (price last / price first - 1))%float
                      else nan)
      /\ Volatilidade_media s = Np.round2 (Np.std (returns_of c data))
      /\ ((List.length (Np.dropna (returns_of c data)) < 2)%nat ->
          Volatilidade_media s = nan)
      /\ (forall values : list float,
            values = Np.dropna (returns_of c data) ->
            (2 <= List.length values)%nat ->
            let n := Z.of_nat (List.length values) in
            let mean := (Np.sum values / Num.float_of_Z n)%float in
            let squares :=
              map (fun v => ((mean - v) * (mean - v))%float) values in
            Volatilidade_media s
            = Np.round2
                (sqrt (Np.sum squares / Num.float_of_Z (n - 1)))%float)
      /\ greatest_of (returns_of c data) up
      /\ Maior_alta_semanal s = Np.round2 up
      /\ least_of (returns_of c data) down
      /\ Maior_queda_semanal s = Np.round2 down
      /\ map Retorno_total
           (compute_summary_stats
              [mkRow "E" 1 50 nan; mkRow "E" 2 100 100%float])
         = [100%float]
      /\ map (fun s' => (Volatilidade_media s', Retorno_total s'))
           (compute_summary_stats [mkRow "E" 1 50 nan])
         = [(nan, 0%float)]
      /\ map Retorno_total
           (compute_summary_stats [mkRow "E" 1 3 nan; mkRow "E" 2 4 nan])
         = [33.33%float]
      /\ map Volatilidade_media
           (compute_summary_stats
              [mkRow "E" 1 100 nan; mkRow "E" 2 110 10%float;
               mkRow "E" 3 132 20%float; mkRow "E" 4 211.2 60%float])
         = [26.46%float].
Proof.
  intros data c Hc.
  assert (Hne : sort date_le (group c data) <> []).
  { intros E. apply sort_nil_inv in E.
    now apply (SummaryFacts.group_not_nil c data Hc). }
  destruct (sort date_le (group c data)) as [| first l] eqn:E1; [congruence |].
  destruct (rev (sort date_le (group c data))) as [| last l'] eqn:E2.
  { rewrite E1 in E2. apply (f_equal (@rev Row)) in E2.
    rewrite rev_involutive in E2. discriminate. }
  exists (summarize c (group c data)), first, last,
    (Np.max (returns_of c data)), (Np.min (returns_of c data)).
  split.
  { unfold compute_summary_stats. destruct data as [| r data]; [destruct Hc |].
    apply (SummaryFacts.filter_by_key (fun c' => summarize c' (group c' (r :: data)))).
    - reflexivity.
    - apply SummaryFacts.group_keys_NoDup.
    - now apply SummaryFacts.group_keys_In. }
  split; [now apply (SummaryFacts.first_of_sorted_group c data first l) |].
  split; [now apply (SummaryFacts.last_of_sorted_group c data last l') |].
  assert (Hf : iloc_first (sort date_le (group c data)) = price first)
    by now rewrite E1.
  assert (Hl : iloc_last (sort date_le (group c data)) = price last)
    by (unfold iloc_last; now rewrite E2).
  unfold summarize, returns_of. cbn [Preco_inicial Preco_final Retorno_total
    Volatilidade_media Maior_alta_semanal Maior_queda_semanal].
  rewrite Hf, Hl.
  split; [reflexivity |]. split; [reflexivity |].
  split.
  { destruct (0 <? price first)%float; [| reflexivity].
    now rewrite FloatFacts.mul_comm. }
  split; [reflexivity |].
  split.
  { intros Hfew. now rewrite (SummaryFacts.std_few _ Hfew). }
  split.
  { intros values -> Hmany. cbv zeta. unfold Np.std.
    destruct (Nat.leb_spec
                (List.length
                   (Np.dropna (map return_pct (sort date_le (group c data)))))
                1); [lia | reflexivity]. }
  split; [apply SummaryFacts.max_greatest |]. split; [reflexivity |].
  split; [apply SummaryFacts.min_least |]. split; [reflexivity |].
  repeat split; reflexivity.
Qed.

Lemma summary_record_rounded_witness :
  exists (s : Summary) (first last : Row) (up down : float),
    filter (fun s' => String.eqb (Empresa s') "B")
      (compute_summary_stats
         [mkRow "A" 1 10 nan; mkRow "B" 1 3 nan; mkRow "B" 2 4 25%float])
    = [s]
    /\ earliest_row "B"
         [mkRow "A" 1 10 nan; mkRow "B" 1 3 nan; mkRow "B" 2 4 25%float] first
    /\ latest_row "B"
         [mkRow "A" 1 10 nan; mkRow "B" 1 3 nan; mkRow "B" 2 4 25%float] last
    /\ Preco_inicial s = Np.round2 (price first)
    /\ Preco_final s = Np.round2 (price last).
Proof.
  destruct (summary_record_rounded
              [mkRow "A" 1 10 nan; mkRow "B" 1 3 nan; mkRow "B" 2 4 25%float]
              "B" (or_intror (or_introl eq_refl)))
    as [s [first [last [up [down [H1 [H2 [H3 [H4 [H5 _]]]]]]]]]].
  exists s, first, last, up, down.
  exact (conj H1 (conj H2 (conj H3 (conj H4 H5)))).
Defined.

(* ================================================================== *)
(** * Further properties of the code *)

(** ** More on the stable sort *)

Section SortMore.

Context {A : Type}.
Variable le : A -> A -> bool.
Hypothesis le_total : forall a b, le a b = false -> le b a = true.
Hypothesis le_trans :
  forall a b c, le a b = true -> le b c = true -> le a c = true.

Lemma insert_head (x : A) (l : list A) :
  Forall (fun y => le x y = true) l -> insert le x l = x :: l.
Proof.
  destruct l as [| y l]; [reflexivity |].
  intros H. apply Forall_inv in H. simpl. now rewrite H.
Qed.

(** Sorting a sorted list changes nothing. *)
Lemma sort_id (l : list A) :
  StronglySorted (fun a b => le a b = true) l -> sort le l = l.
Proof.
  induction 1 as [| x l Hl IH Hx]; [reflexivity |].
  simpl. rewrite IH. now apply insert_head.
Qed.

Lemma filter_insert (p : A -> bool) (x : A) (l : list A) :
  StronglySorted (fun a b => le a b = true) l ->
  filter p (insert le x l)
  = if p x then insert le x (filter p l) else filter p l.
Proof.
  induction 1 as [| y l Hl IH Hy]; simpl.
  - now destruct (p x).
  - destruct (le x y) eqn:E.
    + simpl. destruct (p x) eqn:Px; [| reflexivity].
      symmetry. apply (insert_head x (if p y then y :: filter p l else filter p l)).
      assert (Hall : Forall (fun z => le x z = true) (y :: l)).
      { constructor; [exact E |].
        eapply Forall_impl; [| exact Hy]. intros z Hz. now apply (le_trans x y z). }
      change (Forall (fun z => le x z = true) (filter p (y :: l))).
      rewrite Forall_forall in *. intros z Hz. apply Hall.
      now apply filter_In in Hz.
    + simpl. rewrite IH. destruct (p y), (p x); simpl; now rewrite ?E.
Qed.

(** Selecting rows and sorting them can be done in either order. *)
Lemma filter_sort (p : A -> bool) (l : list A) :
  filter p (sort le l) = sort le (filter p l).
Proof.
  induction l as [| x l IH]; [reflexivity |].
  simpl. rewrite filter_insert by now apply sort_sorted.
  rewrite IH. now destruct (p x).
Qed.

End SortMore.

Lemma filter_comm {A : Type} (p q : A -> bool) (l : list A) :
  filter p (filter q l) = filter q (filter p l).
Proof.
  induction l as [| x l IH]; [reflexivity |].
  simpl. destruct (q x) eqn:Q, (p x) eqn:P; simpl; rewrite ?Q, ?P, IH; reflexivity.
Qed.

(** Two lists in strictly increasing order that have the same elements
    are equal. *)
Lemma strictly_sorted_unique {A : Type} (R : A -> A -> Prop) (l1 : list A) :
  (forall a b, R a b -> R b a -> False) ->
  forall l2,
    StronglySorted R l1 -> StronglySorted R l2 ->
    (forall x, In x l1 <-> In x l2) -> l1 = l2.
Proof.
  intros Hasym. induction l1 as [| x l1 IH]; intros [| y l2] H1 H2 Hin.
  - reflexivity.
  - destruct (proj2 (Hin y) (or_introl eq_refl)).
  - destruct (proj1 (Hin x) (or_introl eq_refl)).
  - apply StronglySorted_inv in H1, H2.
    destruct H1 as [S1 F1], H2 as [S2 F2].
    rewrite Forall_forall in F1, F2.
    assert (E : x = y).
    { destruct (proj1 (Hin x) (or_introl eq_refl)) as [E | Hx]; [now symmetry |].
      destruct (proj2 (Hin y) (or_introl eq_refl)) as [E | Hy]; [exact E |].
      destruct (Hasym x y); [now apply F1 | now apply F2]. }
    subst y. f_equal. apply IH; [exact S1 | exact S2 |].
    intros z. split; intros Hz.
    + destruct (proj1 (Hin z) (or_intror Hz)) as [E | H]; [| exact H].
      subst z. destruct (Hasym x x); now apply F1.
    + destruct (proj2 (Hin z) (or_intror Hz)) as [E | H]; [| exact H].
      subst z. destruct (Hasym x x); now apply F2.
Qed.

(* ================================================================== *)
(** ** More on the Event Extractor *)

Module EventMore.

Local Open Scope float_scope.

Lemma key_opp (x : spec_float) :
  key (SFopp x)
  = let '(a, b, c) := key x in (- a, - b, - c)%Z.
Proof.
  destruct x as [[|] | [|] | | [|] m e]; cbn;
    rewrite ?Z.opp_involutive; reflexivity.
Qed.

Lemma opp_not_nan (x : float) : x <> nan -> (- x) <> nan.
Proof.
  intros H E. apply H. apply Prim2SF_inj.
  apply (f_equal Prim2SF) in E. rewrite opp_spec in E.
  destruct (Prim2SF x); try discriminate E. reflexivity.
Qed.

(** The opposite reverses the order. *)
Lemma leb_opp (x y : float) :
  x <> nan -> y <> nan -> (x <=? y) = true -> (- y <=? - x) = true.
Proof.
  intros Hx Hy.
  rewrite (FloatOrder.leb_key x y Hx Hy).
  rewrite (FloatOrder.leb_key (- y) (- x) (opp_not_nan y Hy) (opp_not_nan x Hx)).
  rewrite !opp_spec, !key_opp.
  destruct (key (Prim2SF x)) as [[a1 a2] a3], (key (Prim2SF y)) as [[b1 b2] b3].
  simpl. lia.
Qed.

(** A number above zero is not at most its opposite. *)
Lemma pos_not_leb_opp (a : float) : (0 <? a) = true -> (a <=? - a) = false.
Proof.
  rewrite ltb_spec, leb_spec, opp_spec. unfold SFltb, SFleb.
  destruct (Prim2SF a) as [[|] | [|] | | [|] m e]; cbn; intros H;
    try discriminate H; reflexivity.
Qed.

Lemma pos_not_nan (a : float) : (0 <? a) = true -> a <> nan.
Proof. intros H ->. discriminate H. Qed.

End EventMore.

Lemma filter_filter_implies {A : Type} (p q : A -> bool) (l : list A) :
  (forall x, q x = true -> p x = true) ->
  filter q (filter p l) = filter q l.
Proof.
  intros H. induction l as [| x l IH]; [reflexivity |].
  simpl. destruct (p x) eqn:P; simpl; rewrite IH; [reflexivity |].
  destruct (q x) eqn:Q; [| reflexivity].
  rewrite (H x Q) in P. discriminate.
Qed.

(** X1.  With a threshold other than zero no row is both a decline and a
    rise; with the threshold zero a row whose return is zero is both. *)
Theorem events_disjoint_unless_zero_threshold :
  forall (data : list Row) (t : float),
    (0 <? abs t)%float = true ->
    (forall r, In r (fst (get_dips_and_momentum data t)) ->
               In r (snd (get_dips_and_momentum data t)) -> False)
    /\ get_dips_and_momentum [mkRow "E" 1 50 0%float] 0
       = ([mkRow "E" 1 50 0%float], [mkRow "E" 1 50 0%float]).
Proof.
  intros data t Ht. split; [| reflexivity].
  rewrite EventFacts.get_dips_and_momentum_eq. simpl. intros r Hd Hm.
  rewrite sort_In, filter_In in Hd, Hm.
  destruct Hd as [_ Hd], Hm as [_ Hm].
  rewrite EventFacts.is_decline_leb in Hd.
  rewrite EventFacts.is_rise_geb in Hm. unfold Np.geb in Hm.
  assert (Ha : abs t <> nan) by now apply EventMore.pos_not_nan.
  assert (Hx : return_pct r <> nan).
  { apply FloatFacts.isna_false. now apply (EventFacts.leb_not_na_l _ _ Hd). }
  assert (H : (abs t <=? - abs t)%float = true).
  { apply (FloatOrder.fleb_trans _ (return_pct r)); auto.
    now apply EventMore.opp_not_nan. }
  rewrite (EventMore.pos_not_leb_opp _ Ht) in H. discriminate.
Qed.

Lemma events_disjoint_unless_zero_threshold_witness :
  (0 <? abs 10)%float = true
  /\ ~ (In (mkRow "A" 2 90 (-10)%float)
           (fst (get_dips_and_momentum
                   [mkRow "A" 1 100 nan; mkRow "A" 2 90 (-10)%float] 10))
        /\ In (mkRow "A" 2 90 (-10)%float)
             (snd (get_dips_and_momentum
                     [mkRow "A" 1 100 nan; mkRow "A" 2 90 (-10)%float] 10))).
Proof.
  split; [reflexivity |]. intros [Hd Hm].
  exact (proj1 (events_disjoint_unless_zero_threshold
                  [mkRow "A" 1 100 nan; mkRow "A" 2 90 (-10)%float]
                  10%float eq_refl) _ Hd Hm).
Defined.

(** X2.  Raising the threshold only removes events: the tables for a
    threshold of greater absolute value are the rows of the tables for
    the smaller one that still qualify, in the same order. *)
Theorem events_shrink_with_threshold :
  forall (data : list Row) (t1 t2 : float),
    (abs t1 <=? abs t2)%float = true ->
    fst (get_dips_and_momentum data t2)
    = filter (is_decline (abs t2)) (fst (get_dips_and_momentum data t1))
    /\ snd (get_dips_and_momentum data t2)
       = filter (is_rise (abs t2)) (snd (get_dips_and_momentum data t1)).
Proof.
  intros data t1 t2 H.
  assert (H1 : abs t1 <> nan).
  { apply FloatFacts.isna_false. now apply (EventFacts.leb_not_na_l _ _ H). }
  assert (H2 : abs t2 <> nan).
  { apply FloatFacts.isna_false. now apply (EventFacts.leb_not_na_r _ _ H). }
  rewrite !EventFacts.get_dips_and_momentum_eq. simpl.
  rewrite !(filter_sort event_le EventFacts.event_le_total
              EventFacts.event_le_trans).
  split; f_equal; symmetry; apply filter_filter_implies; intros r Hr.
  - rewrite EventFacts.is_decline_leb in *.
    assert (Hx : return_pct r <> nan).
    { apply FloatFacts.isna_false. now apply (EventFacts.leb_not_na_l _ _ Hr). }
    apply (FloatOrder.fleb_trans _ (- abs t2)); auto using EventMore.opp_not_nan.
    now apply EventMore.leb_opp.
  - rewrite EventFacts.is_rise_geb in *. unfold Np.geb in *.
    assert (Hx : return_pct r <> nan).
    { apply FloatFacts.isna_false. now apply (EventFacts.leb_not_na_r _ _ Hr). }
    now apply (FloatOrder.fleb_trans _ (abs t2)).
Qed.

Lemma events_shrink_with_threshold_witness :
  fst (get_dips_and_momentum
         [mkRow "A" 2 90 (-10)%float; mkRow "A" 3 63 (-30)%float] 20)
  = filter (is_decline (abs 20))
      (fst (get_dips_and_momentum
              [mkRow "A" 2 90 (-10)%float; mkRow "A" 3 63 (-30)%float] (-5))).
Proof.
  exact (proj1 (events_shrink_with_threshold
                  [mkRow "A" 2 90 (-10)%float; mkRow "A" 3 63 (-30)%float]
                  (-5)%float 20%float eq_refl)).
Defined.

(** X3.  The events of a selection of rows are the selection of the
    events: filtering the data (by company, by date) and extracting the
    events gives the tables of the whole data filtered the same way. *)
Theorem events_of_filtered_data :
  forall (p : Row -> bool) (data : list Row) (t : float),
    get_dips_and_momentum (filter p data) t
    = (filter p (fst (get_dips_and_momentum data t)),
       filter p (snd (get_dips_and_momentum data t))).
Proof.
  intros p data t. rewrite !EventFacts.get_dips_and_momentum_eq. simpl.
  rewrite !(filter_sort event_le EventFacts.event_le_total
              EventFacts.event_le_trans).
  now rewrite (filter_comm p (is_decline (abs t))),
    (filter_comm p (is_rise (abs t))).
Qed.

(* ================================================================== *)
(** ** More on the Return Calculator and the Loader *)

Module ReturnMore.

Lemma group_add_returns_from (c : string) (data : list Point) :
  forall prev1 prev2,
    prev1 c = prev2 c ->
    group c (add_returns_from prev1 data)
    = add_returns_from prev2
        (filter (fun p => String.eqb (p_company p) c) data).
Proof.
  induction data as [| [c0 d0 x0] data IH]; intros prev1 prev2 E.
  - reflexivity.
  - unfold add_returns_from, group in *. simpl.
    destruct (String.eqb c0 c) eqn:E0.
    + apply String.eqb_eq in E0. subst c0. simpl. rewrite E. f_equal.
      apply IH. now rewrite String.eqb_refl.
    + apply IH.
      assert (E' : String.eqb c c0 = false) by now rewrite String.eqb_sym.
      now rewrite E'.
Qed.

End ReturnMore.

(** X4.  The returns of a company depend on the rows of that company
    only: computing the returns of the whole table and keeping the rows
    of a company gives what the Return Calculator gives on the rows of
    that company alone. *)
Theorem returns_of_company_alone :
  forall (data : list Point) (c : string),
    group c (add_returns data)
    = add_returns (filter (fun p => String.eqb (p_company p) c) data).
Proof.
  intros data c. now apply ReturnMore.group_add_returns_from.
Qed.

Section LoaderMore.

Variable to_datetime : string -> option Z.

Lemma line_row_In (c : string) (l : string * string) (p : Point) :
  In p (line_row to_datetime c l) <->
  to_datetime (fst l) = Some (p_date p)
  /\ clean_numeric (snd l) = p_price p
  /\ p_price p <> nan
  /\ p_company p = c.
Proof.
  unfold line_row.
  destruct (to_datetime (fst l)) as [t |].
  - destruct (Num.isna (clean_numeric (snd l))) eqn:E.
    + split; [intros [] |]. intros [_ [H1 [H2 _]]].
      apply FloatFacts.isna_spec in E. congruence.
    + apply FloatFacts.isna_false in E. split.
      * intros [<- | []]. simpl. auto.
      * intros [H1 [H2 [_ H4]]]. left. destruct p as [pc pd pp]. simpl in *.
        injection H1 as ->. now subst.
  - split; [intros [] | intros [H _]; discriminate].
Qed.

Lemma line_row_length (c : string) (l : string * string) :
  List.length (line_row to_datetime c l)
  = if valid_line to_datetime l then 1%nat else 0%nat.
Proof.
  unfold line_row, valid_line.
  destruct (to_datetime (fst l)); [| reflexivity].
  now destruct (Num.isna (clean_numeric (snd l))).
Qed.

Lemma valid_rows_length (u : Upload) :
  List.length (valid_rows to_datetime u)
  = List.length (filter (valid_line to_datetime) (cell_lines u)).
Proof.
  rewrite valid_rows_lines.
  induction (cell_lines u) as [| l ls IH]; [reflexivity |]. simpl.
  rewrite length_app, line_row_length, IH.
  now destruct (valid_line to_datetime l).
Qed.

Lemma flat_map_length {A B : Type} (f : A -> list B) (l : list A) :
  List.length (flat_map f l) = list_sum (map (fun x => List.length (f x)) l).
Proof.
  induction l as [| x l IH]; [reflexivity |]. simpl.
  now rewrite length_app, IH.
Qed.

End LoaderMore.

(** X5.  The table that the Loader returns is sorted by company and,
    within a company, by date; the rows of each company are in
    chronological order; sorting it again and computing the returns
    again gives the same table. *)
Theorem loaded_table_sorted_and_stable :
  forall (to_datetime : string -> option Z) (files : list Upload)
         (df : DataFrame) (ws : list string),
    load_and_transform to_datetime files = Ok (df, ws) ->
    sorted_by_company_date (map point_of (rows df))
    /\ (forall c, chronological (group c (rows df)))
    /\ add_returns (sort point_le (map point_of (rows df))) = rows df.
Proof.
  intros td files df ws H.
  destruct (loaded_table_sorted td files df ws H) as [data [Hs ->]].
  assert (E : map point_of (add_returns data) = data)
    by apply ReturnFacts.point_of_add_returns_from.
  rewrite E. split; [exact Hs |]. split.
  - intros c. now apply ReturnFacts.group_chronological.
  - f_equal. apply sort_id. exact Hs.
Qed.

Lemma loaded_table_sorted_and_stable_witness :
  sorted_by_company_date
    [mkPoint "Boeing" 19723 90; mkPoint "Boeing" 19724 100].
Proof.
  exact (proj1 (loaded_table_sorted_and_stable iso_date
    [mkUpload "Boeing.csv"
       (Some [("Date", ["2024-01-02"; "2024-01-01"]); ("Price", ["100"; "90"])])
       None]
    (mkFrame ["company"; "date"; "price"; "return_pct"]
       [mkRow "Boeing" 19723 90 nan;
        mkRow "Boeing" 19724 100 11.111111111111116])
    [] eq_refl)).
Defined.

(** X6.  The Loader invents and loses nothing.  Every row of its table
    comes from a line of an input: the date of the row is what the date
    reader makes of the cell "Date" of that line, its price is what the
    Value Normalizer makes of the cell "Price" of the same line and is
    not missing, and its company is the label of the name of that input.
    Every line of an input whose date is read and whose price is a
    number gives such a row, and the table has as many rows as the
    inputs have such lines. *)
Theorem loaded_rows_are_the_valid_rows :
  forall (to_datetime : string -> option Z) (files : list Upload)
         (df : DataFrame) (ws : list string),
    load_and_transform to_datetime files = Ok (df, ws) ->
    (forall r, In r (rows df) ->
       exists u dtext ptext,
         In u files
         /\ In (dtext, ptext) (cell_lines u)
         /\ to_datetime dtext = Some (date r)
         /\ clean_numeric ptext = price r
         /\ price r <> nan
         /\ company r = infer_company_name (name u))
    /\ (forall u dtext ptext t,
          In u files ->
          In (dtext, ptext) (cell_lines u) ->
          to_datetime dtext = Some t ->
          clean_numeric ptext <> nan ->
          exists r,
            In r (rows df)
            /\ company r = infer_company_name (name u)
            /\ date r = t
            /\ price r = clean_numeric ptext)
    /\ List.length (rows df)
       = list_sum
           (map (fun u => List.length
                            (filter (valid_line to_datetime) (cell_lines u)))
                files).
Proof.
  intros td files df ws H.
  assert (P := loaded_rows td files df ws H). split; [| split].
  - intros r Hr.
    assert (Hp : In (point_of r) (flat_map (valid_rows td) files)).
    { apply (Permutation_in _ P). now apply in_map. }
    apply in_flat_map in Hp. destruct Hp as [u [Hu Hp]].
    rewrite valid_rows_lines in Hp. apply in_flat_map in Hp.
    destruct Hp as [[dtext ptext] [Hl Hp]].
    apply line_row_In in Hp. simpl in Hp.
    destruct Hp as [H1 [H2 [H3 H4]]].
    exists u, dtext, ptext. auto 7.
  - intros u dtext ptext t Hu Hl Ht Hx.
    assert (Hp : In (mkPoint (infer_company_name (name u)) t
                             (clean_numeric ptext))
                    (map point_of (rows df))).
    { apply (Permutation_in _ (Permutation_sym P)).
      apply in_flat_map. exists u. split; [exact Hu |].
      rewrite valid_rows_lines. apply in_flat_map.
      exists (dtext, ptext). split; [exact Hl |].
      apply line_row_In. simpl. auto. }
    apply in_map_iff in Hp. destruct Hp as [r [E Hr]].
    exists r. split; [exact Hr |].
    unfold point_of in E. injection E as E1 E2 E3. auto.
  - rewrite <- (length_map point_of), (Permutation_length P), flat_map_length.
    f_equal. apply map_ext. intros u. apply valid_rows_length.
Qed.

Lemma loaded_rows_are_the_valid_rows_witness :
  exists r,
    In r [mkRow "Boeing" 19724 100 nan]
    /\ company r = "Boeing"
    /\ date r = 19724%Z
    /\ price r = clean_numeric "$ 100".
Proof.
  exact (proj1 (proj2 (loaded_rows_are_the_valid_rows iso_date
    [mkUpload "Boeing.csv"
       (Some [("Date", ["2024-01-02"; "soon"; "2024-01-04"]);
              ("Price", ["$ 100"; "90"; "n/a"])])
       None]
    (mkFrame ["company"; "date"; "price"; "return_pct"]
       [mkRow "Boeing" 19724 100 nan])
    [] eq_refl))
    (mkUpload "Boeing.csv"
       (Some [("Date", ["2024-01-02"; "soon"; "2024-01-04"]);
              ("Price", ["$ 100"; "90"; "n/a"])])
       None)
    "2024-01-02" "$ 100" 19724%Z
    (or_introl eq_refl) (or_introl eq_refl) eq_refl
    ltac:(intros E; apply (f_equal Num.isna) in E; vm_compute in E;
          discriminate)).
Defined.

(* ================================================================== *)
(** ** More on the Entity Resolver and the Value Normalizer *)

Module ResolverMore.

Lemma lower_app (a b : string) :
  Str.lower (a ++ b) = (Str.lower a ++ Str.lower b)%string.
Proof.
  induction a as [| c a IH]; simpl; [reflexivity | now rewrite IH].
Qed.

(** The part before the last dot is a prefix of the name. *)
Lemma before_last_dot_prefix (s t : string) :
  Str.before_last_dot s = Some t -> exists rest, s = (t ++ rest)%string.
Proof.
  revert t. induction s as [| c s IH]; intros t; simpl; [discriminate |].
  destruct (Str.before_last_dot s) as [t' |].
  - intros H. injection H as <-. destruct (IH t' eq_refl) as [rest ->].
    now exists rest.
  - destruct (Ascii.eqb c "."); [| discriminate].
    intros H. injection H as <-. now exists (String c s).
Qed.

Lemma rsplit_dot_head_prefix (s : string) :
  exists rest, s = (Str.rsplit_dot_head s ++ rest)%string.
Proof.
  unfold Str.rsplit_dot_head.
  destruct (Str.before_last_dot s) as [t |] eqn:E.
  - now apply before_last_dot_prefix.
  - exists EmptyString. clear E. induction s as [| c s IH]; simpl; congruence.
Qed.

(** Every alias of the table is its canonical name in lower case. *)
Lemma alias_is_lower_label (k l : string) :
  In (k, l) COMPANY_LABELS -> Str.lower l = k.
Proof.
  simpl. intros H.
  repeat (destruct H as [H | H]; [injection H as <- <-; reflexivity |]).
  destruct H.
Qed.

Lemma first_label_found (table : list (string * string)) (n l : string) :
  first_label table n = Some l ->
  exists k, In (k, l) table /\ Str.contains k n = true.
Proof.
  induction table as [| [k0 l0] table IH]; simpl; [discriminate |].
  destruct (Str.contains k0 n) eqn:E.
  - intros H. injection H as <-. exists k0. split; [now left | exact E].
  - intros H. destruct (IH H) as [k [Hk Hc]]. exists k. split; [now right | exact Hc].
Qed.

End ResolverMore.

(** X7.  The Entity Resolver returns one of the canonical names of the
    table exactly when an alias of the table occurs in the lower-cased
    label: a label without alias never resolves to a canonical name. *)
Theorem resolver_canonical_iff_alias :
  forall filename : string,
    In (infer_company_name filename) (map snd COMPANY_LABELS) <->
    exists k l, In (k, l) COMPANY_LABELS
                /\ Str.contains k (Str.lower filename) = true.
Proof.
  intros filename. unfold infer_company_name.
  destruct (first_label COMPANY_LABELS (Str.lower filename)) as [l |] eqn:E.
  - apply ResolverMore.first_label_found in E. destruct E as [k [Hk Hc]].
    split.
    + intros _. now exists k, l.
    + intros _. apply in_map_iff. now exists (k, l).
  - split.
    + intros H. apply in_map_iff in H. destruct H as [[k l] [Hl Hin]].
      simpl in Hl. exists k, l. split; [exact Hin |].
      apply ResolverFacts.contains_spec.
      destruct (ResolverMore.rsplit_dot_head_prefix filename) as [rest Hrest].
      exists EmptyString, (Str.lower rest). simpl.
      rewrite Hrest at 1. rewrite ResolverMore.lower_app, <- Hl.
      now rewrite (ResolverMore.alias_is_lower_label k l Hin).
    + intros [k [l [Hin Hc]]].
      rewrite (proj2 (ResolverFacts.first_label_none _ _) E k l Hin) in Hc.
      discriminate.
Qed.

Module NormalizerMore.

Lemma remove_char_app (c : ascii) (a b : string) :
  Str.remove_char c (a ++ b)
  = (Str.remove_char c a ++ Str.remove_char c b)%string.
Proof.
  induction a as [| d a IH]; simpl; [reflexivity |].
  destruct (Ascii.eqb d c); simpl; now rewrite IH.
Qed.

Lemma remove_char_comm (c d : ascii) (s : string) :
  Str.remove_char c (Str.remove_char d s)
  = Str.remove_char d (Str.remove_char c s).
Proof.
  induction s as [| e s IH]; simpl; [reflexivity |].
  destruct (Ascii.eqb e d) eqn:D, (Ascii.eqb e c) eqn:C; simpl;
    rewrite ?D, ?C, IH; reflexivity.
Qed.

Lemma remove_char_absent (c : ascii) (s : string) :
  Str.has_char c s = false -> Str.remove_char c s = s.
Proof.
  induction s as [| d s IH]; simpl; [reflexivity |].
  intros H. apply orb_false_iff in H. destruct H as [H1 H2].
  now rewrite H1, IH.
Qed.

Lemma remove_char_idem (c : ascii) (s : string) :
  Str.remove_char c (Str.remove_char c s) = Str.remove_char c s.
Proof.
  apply remove_char_absent, NormalizerFacts.has_char_remove_same.
Qed.

(** Taking one of the four characters out beforehand changes nothing. *)
Lemma clean_text_remove (c : ascii) (s : string) :
  In c [Str.nbsp; " "%char; ","%char; "$"%char] ->
  clean_text (Str.remove_char c s) = clean_text s.
Proof.
  unfold clean_text. intros [<- | [<- | [<- | [<- | []]]]].
  - now rewrite remove_char_idem.
  - now rewrite (remove_char_comm Str.nbsp " "), remove_char_idem.
  - rewrite (remove_char_comm Str.nbsp ","), (remove_char_comm " " ",").
    now rewrite remove_char_idem.
  - rewrite (remove_char_comm Str.nbsp "$"), (remove_char_comm " " "$"),
      (remove_char_comm "," "$").
    now rewrite remove_char_idem.
Qed.

End NormalizerMore.

(** X8.  A no-break space, a space, a comma or a dollar sign anywhere in
    the text does not change what the Value Normalizer reads, and
    cleaning a cleaned text changes nothing. *)
Theorem normalizer_ignores_separators :
  forall (a b : string) (c : ascii),
    In c [Str.nbsp; " "%char; ","%char; "$"%char] ->
    clean_numeric (a ++ String c b) = clean_numeric (a ++ b)
    /\ clean_text (clean_text a) = clean_text a.
Proof.
  intros a b c Hc. split.
  - unfold clean_numeric. f_equal.
    rewrite <- (NormalizerMore.clean_text_remove c (a ++ String c b) Hc).
    rewrite <- (NormalizerMore.clean_text_remove c (a ++ b) Hc).
    f_equal. rewrite !NormalizerMore.remove_char_app. simpl.
    now rewrite Ascii.eqb_refl.
  - unfold clean_text at 1.
    repeat (rewrite NormalizerMore.remove_char_absent;
            [| unfold clean_text;
               repeat first [ apply NormalizerFacts.has_char_remove_same
                            | apply NormalizerFacts.has_char_remove_other ] ]).
    reflexivity.
Qed.

Lemma normalizer_ignores_separators_witness :
  clean_numeric ("12" ++ String "," "345.5") = clean_numeric ("12" ++ "345.5").
Proof.
  exact (proj1 (normalizer_ignores_separators "12" "345.5" ","%char
                  (or_intror (or_intror (or_introl eq_refl))))).
Defined.

(* ================================================================== *)
(** ** More on the Summary Aggregator *)

Module SummaryMore.

Lemma strict_asym (a b : string) :
  (String.leb a b = true /\ a <> b) -> (String.leb b a = true /\ b <> a) -> False.
Proof.
  intros [H1 N] [H2 _]. apply N. now apply String.leb_antisym.
Qed.

Lemma sorted_nodup_strict (l : list string) :
  StronglySorted (fun a b => String.leb a b = true) l -> NoDup l ->
  StronglySorted (fun a b => String.leb a b = true /\ a <> b) l.
Proof.
  induction 1 as [| x l Hl IH Hx]; intros Hn; [constructor |].
  apply NoDup_cons_iff in Hn. destruct Hn as [Hx' Hn].
  constructor; [now apply IH |].
  rewrite Forall_forall in *. intros y Hy. split; [now apply Hx |].
  intros ->. now apply Hx'.
Qed.

Lemma dedup_sorted (l : list string) :
  StronglySorted (fun a b => String.leb a b = true) l ->
  StronglySorted (fun a b => String.leb a b = true) (dedup l).
Proof.
  induction 1 as [| a l Hl IH Ha]; [constructor |].
  cbn [dedup]. destruct l as [| b l]; [repeat constructor |].
  destruct (String.eqb a b); [exact IH |].
  constructor; [exact IH |].
  rewrite Forall_forall in *. intros y Hy. apply Ha.
  now apply SummaryFacts.dedup_In.
Qed.

Lemma group_keys_strict (data : list Row) :
  StronglySorted (fun a b => String.leb a b = true /\ a <> b) (group_keys data).
Proof.
  apply sorted_nodup_strict; [| apply SummaryFacts.group_keys_NoDup].
  apply dedup_sorted, sort_sorted;
    [apply StrFacts.leb_total | apply StrFacts.leb_trans].
Qed.

Lemma existsb_eqb_In (x : string) (l : list string) :
  existsb (String.eqb x) l = true <-> In x l.
Proof.
  rewrite existsb_exists. split.
  - intros [y [Hy E]]. apply String.eqb_eq in E. now subst y.
  - intros H. exists x. split; [exact H | apply String.eqb_refl].
Qed.

Lemma unique_from_In (l : list string) :
  forall seen x, In x (unique_from seen l) <-> In x l /\ ~ In x seen.
Proof.
  induction l as [| a l IH]; intros seen x; simpl; [tauto |].
  destruct (existsb (String.eqb a) seen) eqn:E.
  - apply existsb_eqb_In in E. rewrite IH. split.
    + tauto.
    + intros [[-> | H] N]; [contradiction | tauto].
  - assert (N : ~ In a seen).
    { intros H. apply existsb_eqb_In in H. congruence. }
    simpl. rewrite IH. simpl. split.
    + intros [-> | [H1 H2]]; [tauto |]. split; [tauto |]. intros H. apply H2. now right.
    + intros [[-> | H] Hs]; [now left |].
      destruct (string_dec a x) as [-> | D]; [now left |].
      right. split; [exact H |]. intros [E' | H']; [contradiction | contradiction].
Qed.

Lemma unique_from_NoDup (l : list string) :
  forall seen, NoDup (unique_from seen l).
Proof.
  induction l as [| a l IH]; intros seen; simpl; [constructor |].
  destruct (existsb (String.eqb a) seen); [apply IH |].
  constructor; [| apply IH].
  rewrite unique_from_In. intros [_ H]. apply H. now left.
Qed.

Lemma companies_In (data : list Row) (c : string) :
  In c (companies data) <-> In c (map company data).
Proof.
  unfold companies. rewrite sort_In, unique_from_In. simpl. tauto.
Qed.

Lemma companies_strict (data : list Row) :
  StronglySorted (fun a b => String.leb a b = true /\ a <> b) (companies data).
Proof.
  apply sorted_nodup_strict.
  - apply sort_sorted; [apply StrFacts.leb_total | apply StrFacts.leb_trans].
  - apply (Permutation_NoDup (Permutation_sym (sort_perm String.leb _))).
    apply unique_from_NoDup.
Qed.

(** The options of the multiselect are the keys of the groups. *)
Lemma companies_group_keys (data : list Row) :
  companies data = group_keys data.
Proof.
  apply (strictly_sorted_unique
           (fun a b => String.leb a b = true /\ a <> b)).
  - apply strict_asym.
  - apply companies_strict.
  - apply group_keys_strict.
  - intros c. now rewrite companies_In, SummaryFacts.group_keys_In.
Qed.

Lemma compute_summary_stats_eq (data : list Row) :
  compute_summary_stats data
  = map (fun c => summarize c (group c data)) (group_keys data).
Proof. destruct data; reflexivity. Qed.

Lemma filter_map_swap {A B : Type} (q : B -> bool) (f : A -> B) (l : list A) :
  filter q (map f l) = map f (filter (fun x => q (f x)) l).
Proof.
  induction l as [| x l IH]; [reflexivity |].
  simpl. destruct (q (f x)); simpl; now rewrite IH.
Qed.

Lemma group_keys_select (sel : list string) (data : list Row) :
  group_keys (select_companies sel data)
  = filter (fun c => existsb (String.eqb c) sel) (group_keys data).
Proof.
  apply (strictly_sorted_unique
           (fun a b => String.leb a b = true /\ a <> b)).
  - apply strict_asym.
  - apply group_keys_strict.
  - apply sorted_filter, group_keys_strict.
  - intros c. rewrite filter_In, !SummaryFacts.group_keys_In, !in_map_iff.
    unfold select_companies. split.
    + intros [r [<- Hr]]. apply filter_In in Hr. destruct Hr as [Hr Hs].
      split; [now exists r | exact Hs].
    + intros [[r [<- Hr]] Hs]. exists r. split; [reflexivity |].
      apply filter_In. now split.
Qed.

Lemma group_select (sel : list string) (data : list Row) (c : string) :
  existsb (String.eqb c) sel = true ->
  group c (select_companies sel data) = group c data.
Proof.
  intros Hs. unfold group, select_companies.
  apply filter_filter_implies. intros r Hr.
  apply String.eqb_eq in Hr. now rewrite Hr.
Qed.

End SummaryMore.

(** X9.  The summary has one record per company of the data, in
    increasing order of the company names and without repetition: the
    companies of its records are the options that the script offers in
    its multiselect; it has no record exactly when the data has no
    row. *)
Theorem summary_one_record_per_company :
  forall data : list Row,
    map Empresa (compute_summary_stats data) = companies data
    /\ StronglySorted (fun a b => String.leb a b = true /\ a <> b)
         (map Empresa (compute_summary_stats data))
    /\ (forall c, In c (map Empresa (compute_summary_stats data)) <->
                  In c (map company data))
    /\ (compute_summary_stats data = [] <-> data = []).
Proof.
  intros data.
  assert (E : map Empresa (compute_summary_stats data) = group_keys data).
  { rewrite SummaryMore.compute_summary_stats_eq, map_map. simpl.
    apply map_id. }
  rewrite E. split; [symmetry; apply SummaryMore.companies_group_keys |].
  split; [apply SummaryMore.group_keys_strict |].
  split; [intros c; apply SummaryFacts.group_keys_In |].
  split.
  - intros H. rewrite H in E. simpl in E.
    destruct data as [| r data]; [reflexivity |].
    assert (Hin : In (company r) (group_keys (r :: data))).
    { apply SummaryFacts.group_keys_In. now left. }
    rewrite <- E in Hin. destruct Hin.
  - intros ->. reflexivity.
Qed.

(** X10.  Selecting companies and summarising gives the records of the
    whole data for the selected companies: the record of a company does
    not depend on the other companies. *)
Theorem summary_of_selected_companies :
  forall (selected : list string) (data : list Row),
    compute_summary_stats (select_companies selected data)
    = filter (fun s => existsb (String.eqb (Empresa s)) selected)
        (compute_summary_stats data).
Proof.
  intros sel data.
  rewrite !SummaryMore.compute_summary_stats_eq.
  rewrite SummaryMore.filter_map_swap. simpl.
  rewrite SummaryMore.group_keys_select.
  apply map_ext_in. intros c Hc. apply filter_In in Hc.
  destruct Hc as [_ Hc]. now rewrite SummaryMore.group_select.
Qed.

(** X11.  The table of the chart of the returns, which leaves out the
    rows without a return, has the same events as the data. *)
Theorem events_of_return_chart_rows :
  forall (data : list Row) (t : float),
    get_dips_and_momentum (return_chart_rows data) t
    = get_dips_and_momentum data t.
Proof.
  intros data t. rewrite !EventFacts.get_dips_and_momentum_eq.
  unfold return_chart_rows.
  f_equal; f_equal; apply filter_filter_implies; intros r Hr;
    [unfold is_decline in Hr | unfold is_rise in Hr];
    now apply andb_true_iff in Hr.
Qed.

(* ================================================================== *)
(** ** The script *)

Module ScriptFacts.

Lemma filter_all {A : Type} (p : A -> bool) (l : list A) :
  (forall x, In x l -> p x = true) -> filter p l = l.
Proof.
  induction l as [| x l IH]; intros H; [reflexivity |].
  simpl. rewrite (H x) by now left. f_equal. apply IH.
  intros y Hy. apply H. now right.
Qed.

Lemma fold_min_le (l : list Z) :
  forall x, (fold_left Z.min l x <= x)%Z
            /\ forall y, In y l -> (fold_left Z.min l x <= y)%Z.
Proof.
  induction l as [| a l IH]; intros x; simpl; [split; [lia | tauto] |].
  destruct (IH (Z.min x a)) as [H1 H2]. split; [lia |].
  intros y [<- | Hy]; [lia | now apply H2].
Qed.

Lemma fold_max_ge (l : list Z) :
  forall x, (x <= fold_left Z.max l x)%Z
            /\ forall y, In y l -> (y <= fold_left Z.max l x)%Z.
Proof.
  induction l as [| a l IH]; intros x; simpl; [split; [lia | tauto] |].
  destruct (IH (Z.max x a)) as [H1 H2]. split; [lia |].
  intros y [<- | Hy]; [lia | now apply H2].
Qed.

Lemma min_of_le (l : list Z) (y : Z) : In y l -> (min_of l <= y)%Z.
Proof.
  destruct l as [| x l]; [intros [] |]. simpl.
  destruct (fold_min_le l x) as [H1 H2].
  intros [<- | Hy]; [exact H1 | now apply H2].
Qed.

Lemma max_of_ge (l : list Z) (y : Z) : In y l -> (y <= max_of l)%Z.
Proof.
  destruct l as [| x l]; [intros [] |]. simpl.
  destruct (fold_max_ge l x) as [H1 H2].
  intros [<- | Hy]; [exact H1 | now apply H2].
Qed.

Lemma dt_date_mono (ticks a b : Z) :
  (0 < ticks)%Z -> (a <= b)%Z -> (dt_date ticks a <= dt_date ticks b)%Z.
Proof. intros Ht Hab. unfold dt_date. now apply Z.div_le_mono. Qed.

(** The mask of the whole range of dates keeps every row. *)
Lemma date_mask_whole_range (ticks : Z) (data : list Row) :
  (0 < ticks)%Z ->
  date_mask ticks (dt_date ticks (min_of (map date data)))
            (dt_date ticks (max_of (map date data))) data
  = data.
Proof.
  intros Ht. unfold date_mask. apply filter_all. intros r Hr.
  assert (Hd : In (date r) (map date data)) by now apply in_map.
  apply andb_true_iff. split; apply Z.leb_le; apply dt_date_mono; auto.
  - now apply min_of_le.
  - now apply max_of_ge.
Qed.

Lemma select_all_companies (data : list Row) :
  select_companies (companies data) data = data.
Proof.
  unfold select_companies. apply filter_all. intros r Hr.
  apply SummaryMore.existsb_eqb_In, SummaryMore.companies_In.
  now apply in_map.
Qed.

Lemma sorted_map_inv {A B : Type} (R : B -> B -> Prop) (f : A -> B)
    (l : list A) :
  StronglySorted (fun a b => R (f a) (f b)) l -> StronglySorted R (map f l).
Proof.
  induction 1 as [| x l Hl IH Hx]; simpl; constructor; [exact IH |].
  rewrite Forall_forall in *. intros y Hy.
  apply in_map_iff in Hy. destruct Hy as [z [<- Hz]]. now apply Hx.
Qed.

(** A selection of rows of a sorted table is sorted. *)
Lemma filter_rows_sorted (p : Row -> bool) (data : list Row) :
  sorted_by_company_date (map point_of data) ->
  sorted_by_company_date (map point_of (filter p data)).
Proof.
  unfold sorted_by_company_date. intros H.
  apply sorted_map_inv, sorted_filter.
  now apply (ReturnFacts.sorted_map (fun a b => point_le a b = true) point_of).
Qed.

End ScriptFacts.

Lemma filter_filter_andb {A : Type} (p q : A -> bool) (l : list A) :
  filter q (filter p l) = filter (fun x => p x && q x) l.
Proof.
  induction l as [| x l IH]; [reflexivity |].
  simpl. destruct (p x); simpl; [destruct (q x) |]; now rewrite IH.
Qed.

Lemma summary_nil (data : list Row) :
  compute_summary_stats data = [] -> data = [].
Proof.
  destruct data as [| r data]; [reflexivity |]. intros H.
  assert (Hin : In (company r) (group_keys (r :: data))).
  { apply SummaryFacts.group_keys_In. now left. }
  rewrite SummaryMore.compute_summary_stats_eq in H.
  apply map_eq_nil in H. rewrite H in Hin. destruct Hin.
Qed.

(** X12.  With every company selected and the date input left at its
    default (the whole range, or a single date), the script shows the
    whole table of the Loader, its events and its summary. *)
Theorem run_with_defaults_shows_whole_table :
  forall (to_datetime : string -> option Z) (ticks_per_day : Z)
         (date_input : Z -> Z -> DateInput) (threshold : Z)
         (files : list Upload) (df : DataFrame) (ws : list string),
    (0 < ticks_per_day)%Z ->
    files <> [] ->
    load_and_transform to_datetime files = Ok (df, ws) ->
    rows df <> [] ->
    (forall a b, date_input a b = DateTuple [a; b]
                 \/ exists d, date_input a b = OneDate d) ->
    run_app to_datetime ticks_per_day (fun _ => true) date_input threshold files
    = Shown (mkView (rows df)
               (fst (get_dips_and_momentum (rows df) (Num.float_of_Z threshold)))
               (snd (get_dips_and_momentum (rows df) (Num.float_of_Z threshold)))
               (compute_summary_stats (rows df))).
Proof.
  intros td ticks di thr files df ws Ht Hf Hload Hrows Hdi.
  unfold run_app. destruct files as [| u files]; [congruence |].
  rewrite Hload.
  destruct (rows df) as [| r0 l0] eqn:E; [congruence |]. rewrite <- E.
  rewrite (ScriptFacts.filter_all (fun _ => true)) by reflexivity.
  destruct (companies (rows df)) as [| c0 cs] eqn:Ec.
  { assert (Hin : In (company r0) (companies (rows df))).
    { apply SummaryMore.companies_In. rewrite E. now left. }
    rewrite Ec in Hin. destruct Hin. }
  rewrite <- Ec, ScriptFacts.select_all_companies.
  assert (Hu : unpack_range
                 (dt_date ticks (min_of (map date (rows df))))
                 (dt_date ticks (max_of (map date (rows df))))
                 (di (dt_date ticks (min_of (map date (rows df))))
                     (dt_date ticks (max_of (map date (rows df)))))
               = Ok (dt_date ticks (min_of (map date (rows df))),
                     dt_date ticks (max_of (map date (rows df))))).
  { destruct (Hdi (dt_date ticks (min_of (map date (rows df))))
                  (dt_date ticks (max_of (map date (rows df)))))
      as [-> | [d ->]]; reflexivity. }
  rewrite Hu, (ScriptFacts.date_mask_whole_range ticks (rows df) Ht).
  rewrite E at 1.
  now destruct (get_dips_and_momentum (rows df) (Num.float_of_Z thr)).
Qed.

Lemma run_with_defaults_shows_whole_table_witness :
  run_app iso_date 1 (fun _ => true) (fun a b => DateTuple [a; b]) 10
    [mkUpload "Boeing.csv"
       (Some [("Date", ["2024-01-02"; "2024-01-01"]); ("Price", ["100"; "90"])])
       None]
  = Shown (mkView
             [mkRow "Boeing" 19723 90 nan;
              mkRow "Boeing" 19724 100 11.111111111111116]
             []
             [mkRow "Boeing" 19724 100 11.111111111111116]
             [mkSummary "Boeing" 90 100 11.11 nan 11.11 11.11]).
Proof.
  refine (run_with_defaults_shows_whole_table iso_date 1
            (fun a b => DateTuple [a; b]) 10
            [mkUpload "Boeing.csv"
               (Some [("Date", ["2024-01-02"; "2024-01-01"]);
                      ("Price", ["100"; "90"])])
               None]
            (mkFrame ["company"; "date"; "price"; "return_pct"]
               [mkRow "Boeing" 19723 90 nan;
                mkRow "Boeing" 19724 100 11.111111111111116])
            [] _ _ eq_refl _ _).
  - lia.
  - discriminate.
  - discriminate.
  - intros a b. now left.
Defined.

(** X13.  What a run shows is a selection of the table of the Loader: a
    non-empty list of its rows, unchanged (each with the return it has in
    the whole table) and in their order, all of picked companies, still
    sorted by company and date; the events and the summary shown are
    those of this selection, and the summary is never empty. *)
Theorem shown_view_is_selection_of_loaded_table :
  forall (to_datetime : string -> option Z) (ticks_per_day : Z)
         (pick : string -> bool) (date_input : Z -> Z -> DateInput)
         (threshold : Z) (files : list Upload) (v : View),
    run_app to_datetime ticks_per_day pick date_input threshold files
    = Shown v ->
    exists df ws,
      load_and_transform to_datetime files = Ok (df, ws)
      /\ v_data v <> []
      /\ (exists p, v_data v = filter p (rows df))
      /\ (forall r, In r (v_data v) ->
                    In r (rows df) /\ pick (company r) = true)
      /\ sorted_by_company_date (map point_of (v_data v))
      /\ (v_dips v, v_momentum v)
         = get_dips_and_momentum (v_data v) (Num.float_of_Z threshold)
      /\ v_stats v = compute_summary_stats (v_data v)
      /\ v_stats v <> [].
Proof.
  intros td ticks pick di thr files v. unfold run_app.
  destruct files as [| u files]; [discriminate |].
  destruct (load_and_transform td (u :: files)) as [[df ws] |] eqn:Hload;
    [| discriminate].
  destruct (rows df) as [| r0 l0] eqn:E; [discriminate |]. rewrite <- E.
  destruct (filter pick (companies (rows df))) as [| c0 cs] eqn:Ec;
    [discriminate |].
  rewrite <- Ec.
  set (data1 := select_companies (filter pick (companies (rows df))) (rows df)).
  destruct (unpack_range _ _ _) as [[s e] |]; [| discriminate].
  destruct (date_mask ticks s e data1) as [| r1 l1] eqn:Em; [discriminate |].
  rewrite <- Em.
  destruct (get_dips_and_momentum (date_mask ticks s e data1)
              (Num.float_of_Z thr)) as [dips mom] eqn:Eg.
  intros H. injection H as <-. simpl.
  exists df, ws. split; [reflexivity |].
  split; [rewrite Em; discriminate |].
  split.
  { eexists. unfold date_mask, data1, select_companies.
    apply filter_filter_andb. }
  split.
  { intros r Hr. unfold date_mask in Hr. apply filter_In in Hr.
    destruct Hr as [Hr _]. unfold data1, select_companies in Hr.
    apply filter_In in Hr. destruct Hr as [Hr Hs]. split; [exact Hr |].
    apply SummaryMore.existsb_eqb_In in Hs. apply filter_In in Hs.
    now destruct Hs. }
  split.
  { unfold date_mask, data1, select_companies.
    do 2 apply ScriptFacts.filter_rows_sorted.
    destruct (loaded_table_sorted td (u :: files) df ws Hload) as [pts [Hs ->]].
    now rewrite ReturnFacts.add_returns_from_start,
      ReturnFacts.point_of_add_returns_from. }
  split; [now rewrite Eg |]. split; [reflexivity |].
  intros H. apply summary_nil in H. rewrite Em in H. discriminate.
Qed.

Lemma shown_view_is_selection_of_loaded_table_witness :
  exists df ws,
    load_and_transform iso_date
      [mkUpload "Boeing.csv"
         (Some [("Date", ["2024-01-02"; "2024-01-01"]); ("Price", ["100"; "90"])])
         None]
    = Ok (df, ws)
    /\ [mkRow "Boeing" 19724 100 11.111111111111116] <> []
    /\ exists p, [mkRow "Boeing" 19724 100 11.111111111111116]
                 = filter p (rows df).
Proof.
  destruct (shown_view_is_selection_of_loaded_table iso_date 1
              (fun _ => true) (fun a b => DateTuple [b; b]) 10
              [mkUpload "Boeing.csv"
                 (Some [("Date", ["2024-01-02"; "2024-01-01"]);
                        ("Price", ["100"; "90"])])
                 None]
              (mkView [mkRow "Boeing" 19724 100 11.111111111111116]
                      []
                      [mkRow "Boeing" 19724 100 11.111111111111116]
                      [mkSummary "Boeing" 100 100 0 nan 11.11 11.11])
              eq_refl)
    as [df [ws [H1 [H2 [H3 _]]]]].
  exists df, ws. exact (conj H1 (conj H2 H3)).
Defined.

(** X14.  A run ends on an exception when the Loader raises, and when
    the date input answers with a tuple that has not two dates (the
    first date picked and the second not yet): the script unpacks the
    tuple without looking at its length. *)
Theorem run_crashes_on_loader_error_or_short_range :
  forall (to_datetime : string -> option Z) (ticks_per_day : Z)
         (pick : string -> bool) (date_input : Z -> Z -> DateInput)
         (threshold : Z) (files : list Upload),
    files <> [] ->
    (load_and_transform to_datetime files = Raised ->
     run_app to_datetime ticks_per_day pick date_input threshold files
     = Crashed)
    /\ (forall df ws,
          load_and_transform to_datetime files = Ok (df, ws) ->
          rows df <> [] ->
          filter pick (companies (rows df)) <> [] ->
          (forall a b, exists ds, date_input a b = DateTuple ds
                                  /\ List.length ds <> 2%nat) ->
          run_app to_datetime ticks_per_day pick date_input threshold files
          = Crashed).
Proof.
  intros td ticks pick di thr files Hf. unfold run_app.
  destruct files as [| u files]; [congruence |]. split.
  - intros ->. reflexivity.
  - intros df ws -> Hrows Hsel Hdi.
    destruct (rows df) as [| r0 l0]; [congruence |].
    destruct (filter pick (companies (r0 :: l0))) as [| c0 cs]; [congruence |].
    match goal with
    | |- context [di ?a ?b] => destruct (Hdi a b) as [ds [-> Hlen]]
    end.
    destruct ds as [| d1 [| d2 [| d3 ds]]]; simpl in Hlen; try reflexivity.
    congruence.
Qed.

Lemma run_crashes_on_loader_error_or_short_range_witness :
  run_app iso_date 1 (fun _ => true) (fun a _ => DateTuple [a]) 10
    [mkUpload "Boeing.csv"
       (Some [("Date", ["2024-01-02"; "2024-01-01"]); ("Price", ["100"; "90"])])
       None]
  = Crashed.
Proof.
  refine (proj2 (run_crashes_on_loader_error_or_short_range iso_date 1
                   (fun _ => true) (fun a _ => DateTuple [a]) 10
                   [mkUpload "Boeing.csv"
                      (Some [("Date", ["2024-01-02"; "2024-01-01"]);
                             ("Price", ["100"; "90"])])
                      None] _)
            (mkFrame ["company"; "date"; "price"; "return_pct"]
               [mkRow "Boeing" 19723 90 nan;
                mkRow "Boeing" 19724 100 11.111111111111116])
            [] eq_refl _ _ _); try discriminate.
  intros a b. exists [a]. split; [reflexivity | discriminate].
Defined.

Lemma date_mask_inverted (ticks s e : Z) (data : list Row) :
  (e < s)%Z -> date_mask ticks s e data = [].
Proof.
  intros H. unfold date_mask. induction data as [| r data IH]; [reflexivity |].
  simpl. rewrite IH.
  destruct (s <=? dt_date ticks (date r))%Z eqn:E1; [| reflexivity].
  destruct (dt_date ticks (date r) <=? e)%Z eqn:E2; [| reflexivity].
  apply Z.leb_le in E1, E2. lia.
Qed.

(** X15.  When the date input answers with a range whose start is after
    its end, no row is in the range and the run stops with the message
    of the empty range; nothing is shown. *)
Theorem run_halts_on_inverted_range :
  forall (to_datetime : string -> option Z) (ticks_per_day : Z)
         (pick : string -> bool) (date_input : Z -> Z -> DateInput)
         (threshold : Z) (files : list Upload) (df : DataFrame)
         (ws : list string) (start_date end_date : Z),
    files <> [] ->
    load_and_transform to_datetime files = Ok (df, ws) ->
    rows df <> [] ->
    filter pick (companies (rows df)) <> [] ->
    (forall a b, date_input a b = DateTuple [start_date; end_date]) ->
    (end_date < start_date)%Z ->
    run_app to_datetime ticks_per_day pick date_input threshold files
    = Halted EmptyRange.
Proof.
  intros td ticks pick di thr files df ws s e Hf Hload Hrows Hsel Hdi Hlt.
  unfold run_app. destruct files as [| u files]; [congruence |].
  rewrite Hload.
  destruct (rows df) as [| r0 l0]; [congruence |].
  destruct (filter pick (companies (r0 :: l0))) as [| c0 cs]; [congruence |].
  rewrite Hdi. cbn [unpack_range].
  now rewrite (date_mask_inverted ticks s e _ Hlt).
Qed.

Lemma run_halts_on_inverted_range_witness :
  run_app iso_date 1 (fun _ => true) (fun _ _ => DateTuple [19800; 19700]%Z) 10
    [mkUpload "Boeing.csv"
       (Some [("Date", ["2024-01-02"; "2024-01-01"]); ("Price", ["100"; "90"])])
       None]
  = Halted EmptyRange.
Proof.
  refine (run_halts_on_inverted_range iso_date 1 (fun _ => true)
            (fun _ _ => DateTuple [19800; 19700]%Z) 10
            [mkUpload "Boeing.csv"
               (Some [("Date", ["2024-01-02"; "2024-01-01"]);
                      ("Price", ["100"; "90"])])
               None]
            (mkFrame ["company"; "date"; "price"; "return_pct"]
               [mkRow "Boeing" 19723 90 nan;
                mkRow "Boeing" 19724 100 11.111111111111116])
            [] 19800%Z 19700%Z _ eq_refl _ _ _ _); try discriminate.
  - reflexivity.
  - lia.
Defined.
